(** * teamcityrun: the build-log normalizer ([logparse] and [cleanupLog])

    Shallow embedding of [src/unnamed/part_000]: the line parser [logparse],
    the context stack closure [treeize], and the scan of [cleanupLog] with its
    verbosity bit-mask, phase flags, per-record emission latch and the
    only-failed buffer.  Output is the sequence of [fmt.Printf] calls, each
    of which ends in a newline; [render] gives the bytes written. *)

From Stdlib Require Import ZArith List String Ascii Bool Lia Floats.
From Stdlib Require Import Numbers.DecimalString Sorting.Permutation.
Import ListNotations.
Open Scope list_scope.
Open Scope string_scope.

(** ** Characters and string helpers *)

Definition chTAB : ascii := "009"%char.
Definition chNL : ascii := "010"%char.
Definition chCR : ascii := "013"%char.
Definition chQUOTE : ascii := "034"%char.

Definition TAB : string := String chTAB EmptyString.
Definition NL : string := String chNL EmptyString.

(** [strings.HasPrefix] *)
Fixpoint hasPrefix (s pre : string) : bool :=
  match pre, s with
  | EmptyString, _ => true
  | String p pre', String c s' => Ascii.eqb p c && hasPrefix s' pre'
  | String _ _, EmptyString => false
  end.

(** [strings.HasSuffix] *)
Definition hasSuffix (s suf : string) : bool :=
  (length suf <=? length s)%nat
  && String.eqb (substring (length s - length suf) (length suf) s) suf.

(** Last byte of a string, if any. *)
Fixpoint lastChar (s : string) : option ascii :=
  match s with
  | EmptyString => None
  | String c EmptyString => Some c
  | String _ s' => lastChar s'
  end.

(** [s[:len(s)-1]] *)
Fixpoint dropLast (s : string) : string :=
  match s with
  | EmptyString => EmptyString
  | String _ EmptyString => EmptyString
  | String c s' => String c (dropLast s')
  end.

Definition endsWith (c : ascii) (s : string) : bool :=
  match lastChar s with Some d => Ascii.eqb d c | None => false end.

(** ** The input: [bufio.Scanner] with [bufio.ScanLines]

    [ScanLines] cuts the stream at every ['\n'], drops one ['\r'] before it
    ([dropCR]), and yields a final unterminated fragment when it is not empty.
    The scanner's buffer grows up to [MaxScanTokenSize] (64 KiB) bytes: once
    65536 bytes of one line are buffered without a ['\n'], [Scan] sets
    [ErrTooLong] and returns false.  The buffered 65536 bytes stay in the
    buffer; with the error set, the next [Scan] hands them to [ScanLines] as
    at the end of the stream, which yields them (less a final ['\r']) as one
    last token.  The reader is taken to report the end of the stream on a
    call of its own ([os.File] does), so a final fragment of 65536 bytes
    also stops the scan; it never returns zero bytes without an error. *)

Definition dropCR (s : string) : string :=
  if endsWith chCR s then dropLast s else s.

(** [MaxScanTokenSize] *)
Definition maxTokenSize : nat := 65536.

(** The tokens [Scan] yields from the line being read ([cur], of [k]
    bytes) and the rest of the stream, and how the scan stops: [None] at
    the end of the stream, [Some chunk] on [ErrTooLong], [chunk] being the
    token a further [Scan] call yields. *)
Fixpoint scanLines_from (cur : string) (k : nat) (s : string)
  : list string * option string :=
  match s with
  | EmptyString =>
      (match cur with EmptyString => [] | _ => [dropCR cur] end, None)
  | String c s' =>
      if Ascii.eqb c chNL then
        let '(ls, stop) := scanLines_from EmptyString 0 s' in (dropCR cur :: ls, stop)
      else if (S k <? maxTokenSize)%nat then
        scanLines_from (cur ++ String c EmptyString) (S k) s'
      else ([], Some (dropCR (cur ++ String c EmptyString)))
  end.

Definition scanLines (s : string) : list string * option string :=
  scanLines_from EmptyString 0 s.


(** ** [strconv.Atoi] (its fast path: every call here gets two bytes) *)

Fixpoint atoi_digits (s : string) (n : Z) : option Z :=
  match s with
  | EmptyString => Some n
  | String c s' =>
      let d := (Z.of_nat (nat_of_ascii c) - 48)%Z in
      if ((d <? 0) || (9 <? d))%Z then None
      else atoi_digits s' (n * 10 + d)%Z
  end.

(** [None] is the [syntaxError] result; [Atoi] returns 0 with it. *)
Definition Atoi (s : string) : option Z :=
  match s with
  | EmptyString => None
  | String c s' =>
      if Ascii.eqb c "-" then
        match s' with
        | EmptyString => None
        | _ => option_map Z.opp (atoi_digits s' 0)
        end
      else if Ascii.eqb c "+" then
        match s' with
        | EmptyString => None
        | _ => atoi_digits s' 0
        end
      else atoi_digits s 0
  end.

(** [n, _ := strconv.Atoi(s)]: the error is discarded, [n] is 0 then. *)
Definition atoiIgnoringErr (s : string) : Z :=
  match Atoi s with Some n => n | None => 0%Z end.

(** ** Records: [testEvent] and [logline] *)

(** [type testEvent struct]; [Elapsed] is a [float64]. *)
Record testEvent := mkTestEvent {
  Time : string;
  Action : string;
  Package : string;
  Test : string;
  Elapsed : float;
  Output : string
}.

(** [type logline struct]; the field [testEvent *testEvent] is [testEvt],
    [nil] being [None]. *)
Record logline := mkLogline {
  raw : string;
  time : Z;
  indent : nat;
  tags : list string;
  text : string;
  addtext : string;
  testEvt : option testEvent
}.

Definition set_addtext (a : string) (ll : logline) : logline :=
  mkLogline (raw ll) (time ll) (indent ll) (tags ll) (text ll) a (testEvt ll).

Definition set_testEvt (te : option testEvent) (ll : logline) : logline :=
  mkLogline (raw ll) (time ll) (indent ll) (tags ll) (text ll) (addtext ll) te.

(** ** [logparse]

    The closures [expectByte], [expectLen] and [consumeMaybe] act on the
    variable [rest]; [perr] panics, which is the [inl] branch below. *)

Inductive parsed :=
  | PNil                      (* return nil *)
  | POk (ll : logline)        (* return &ll *)
  | PPanic (reason : string). (* perr(reason) *)

Definition PM (A : Type) : Type := (string + A)%type.

Definition pbind {A B} (m : PM A) (k : A -> PM B) : PM B :=
  match m with inl e => inl e | inr a => k a end.

Notation "x <- m ;; k" := (pbind m (fun x => k))
  (at level 61, m at next level, right associativity).

Definition expectByte (b : ascii) (rest : string) : PM string :=
  match rest with
  | String c r => if Ascii.eqb c b then inr r else inl ("expecting " ++ String b EmptyString)
  | EmptyString => inl ("expecting " ++ String b EmptyString)
  end.

(** Returns [(rest[:n], rest[n:])]. *)
Definition expectLen (n : nat) (rest : string) : PM (string * string) :=
  if (length rest <? n)%nat then inl "expecting characters"
  else inr (substring 0 n rest, substring n (length rest - n) rest).

Definition consumeMaybe (b : ascii) (rest : string) : string :=
  match rest with
  | String c r => if Ascii.eqb c b then r else rest
  | EmptyString => rest
  end.

(** The indentation loop: counts and strips the leading tabs. *)
Fixpoint countTabs (rest : string) : nat * string :=
  match rest with
  | String c r =>
      if Ascii.eqb c chTAB then let '(n, r') := countTabs r in (S n, r')
      else (0%nat, rest)
  | EmptyString => (0%nat, rest)
  end.

(** The inner [for i := 0; i < len(rest); i++] search for [']']:
    [Some (rest[:i], rest[i+1:])] at the first [']'], [None] if none. *)
Fixpoint splitAtClose (rest : string) : option (string * string) :=
  match rest with
  | EmptyString => None
  | String c r =>
      if Ascii.eqb c "]" then Some (EmptyString, r)
      else match splitAtClose r with
           | Some (t, r') => Some (String c t, r')
           | None => None
           end
  end.

(** The tags loop.  Each round that goes on consumes at least two bytes,
    so [length rest] rounds are enough; [fuel] only makes the recursion
    structural.  When no [']'] follows, the ['['] has already been consumed
    from [rest] and the loop breaks. *)
Fixpoint tagsLoop (fuel : nat) (rest : string) (acc : list string)
  : list string * string :=
  match fuel with
  | O => (acc, rest)
  | S fuel' =>
      let rest := consumeMaybe " " rest in
      match rest with
      | String c r =>
          if Ascii.eqb c "[" then
            match splitAtClose r with
            | Some (t, r') => tagsLoop fuel' r' (acc ++ [t])%list
            | None => (acc, r)
            end
          else (acc, rest)
      | EmptyString => (acc, rest)
      end
  end.

Definition logparse_body (line : string) : PM logline :=
  rest <- expectByte "[" line ;;
  hr <- expectLen 2 rest ;;
  rest <- expectByte ":" (snd hr) ;;
  mr <- expectLen 2 rest ;;
  rest <- expectByte ":" (snd mr) ;;
  sr <- expectLen 2 rest ;;
  rest <- expectByte "]" (snd sr) ;;
  let hour := atoiIgnoringErr (fst hr) in
  let minute := atoiIgnoringErr (fst mr) in
  let second := atoiIgnoringErr (fst sr) in
  fr <- expectLen 1 rest ;;
  rest <- expectByte ":" (snd fr) ;;
  let '(ind, rest) := countTabs rest in
  let '(tg, rest) := tagsLoop (length rest) rest [] in
  inr (mkLogline line (hour * 60 * 60 + minute * 60 + second)%Z ind tg rest
         EmptyString None).

Definition logparse (line : string) : parsed :=
  match line with
  | String c _ => if negb (Ascii.eqb c "[") then PNil else
      match logparse_body line with inl e => PPanic e | inr ll => POk ll end
  | EmptyString =>
      match logparse_body line with inl e => PPanic e | inr ll => POk ll end
  end.

(** ** The verbosity bit-mask of [cleanupLog] ([mode uint16]) *)

Definition verboseNothing : Z := 0.
Definition verboseGoTestVerbose : Z := 1.
Definition verboseTestOutput : Z := 2.

Definition modeRawText : Z := Z.shiftl 1 0.
Definition modeShowHeader : Z := Z.shiftl 1 1.
Definition modeShowTestOutput : Z := Z.shiftl 1 2.
Definition modeShowRoot : Z := Z.shiftl 1 3.
Definition modeShowStep1 : Z := Z.shiftl 1 4.
Definition modeShowStep2 : Z := Z.shiftl 1 5.
Definition modeShowStep2Top : Z := Z.shiftl 1 6.
Definition modeShowStep2OutputActions : Z := Z.shiftl 1 7.
Definition modeSkipBeforeDwz : Z := Z.shiftl 1 8.
Definition modeSkipJson : Z := Z.shiftl 1 9.
Definition modeSkipBeforeMakeTest : Z := Z.shiftl 1 10.
Definition modeMassaged : Z := Z.shiftl 1 11.
Definition modeShowOnlyFailed : Z := Z.shiftl 1 12.

(** [mode&flag != 0] *)
Definition has (mode flag : Z) : bool := negb (Z.land mode flag =? 0)%Z.

(** The [switch verbose]: [default] falls through to [verboseAllText]. *)
Definition modeOf (verbose : Z) : Z :=
  if (verbose =? verboseNothing)%Z then
    Z.lor modeShowHeader (Z.lor modeShowStep2Top (Z.lor modeMassaged
      (Z.lor modeSkipBeforeMakeTest (Z.lor modeShowOnlyFailed modeSkipJson))))
  else if (verbose =? verboseGoTestVerbose)%Z then
    Z.lor modeShowHeader (Z.lor modeShowStep2Top (Z.lor modeShowStep2OutputActions
      (Z.lor modeMassaged (Z.lor modeSkipJson modeSkipBeforeDwz))))
  else if (verbose =? verboseTestOutput)%Z then
    Z.lor modeShowHeader (Z.lor modeShowRoot (Z.lor modeShowStep1
      (Z.lor modeShowStep2 (Z.lor modeShowTestOutput (Z.lor modeMassaged modeSkipJson)))))
  else Z.lor modeRawText modeShowHeader.

(** ** The context stack: [stack := make([]string, 0, 20)]

    A Go slice: its backing array [arr] (whose length is the capacity) and
    its length [slen]; the visible stack is [arr[:slen]]. *)

Record stackv := mkStack { arr : list string; slen : nat }.

Definition initStack : stackv := mkStack (repeat EmptyString 20) 0.

Definition visible (stk : stackv) : list string := firstn (slen stk) (arr stk).

(** [a[i] = x]; every index written by [treeize] is below the length. *)
Fixpoint upd (a : list string) (i : nat) (x : string) : list string :=
  match a, i with
  | [], _ => []
  | _ :: a', O => x :: a'
  | y :: a', S i' => y :: upd a' i' x
  end.

(** [for i := range ll.tags { stack[len(stack)-len(ll.tags)+i] = ll.tags[i] }];
    a negative index panics. *)
Fixpoint writeTags (a : list string) (len ntags i : nat) (ts : list string)
  : string + list string :=
  match ts with
  | [] => inr a
  | t :: ts' =>
      let idx := (Z.of_nat len - Z.of_nat ntags + Z.of_nat i)%Z in
      if (idx <? 0)%Z then inl "index out of range"
      else writeTags (upd a (Z.to_nat idx) t) len ntags (S i) ts'
  end.

(** The closure [treeize]; [inl] is a runtime panic. *)
Definition treeize (stk : stackv) (ll : logline) : string + stackv :=
  let pl := slen stk in
  if (List.length (arr stk) <? indent ll)%nat then inl "slice bounds out of range"
  else
    let a := fold_left (fun a i => upd a i EmptyString)
               (seq pl (indent ll - pl)) (arr stk) in
    match writeTags a (indent ll) (List.length (tags ll)) 0 (tags ll) with
    | inl e => inl e
    | inr a' => inr (mkStack a' (indent ll))
    end.

Definition topOfStackIs (stk : stackv) (s : string) : bool :=
  (0 <? slen stk)%nat && String.eqb (nth (slen stk - 1) (arr stk) EmptyString) s.

Definition stackHas (stk : stackv) (s : string) : bool :=
  existsb (fun z => String.eqb z s) (visible stk).

(** ** The scan of [cleanupLog] *)

(** Variables live across iterations of the main loop. *)
Record scanState := mkScan {
  stack : stackv;
  lastTime : Z;
  first : bool;
  firstMassaged : bool;
  afterDwz : bool;
  afterMakeTest : bool;
  cached : list logline
}.

Definition initScan : scanState :=
  mkScan initStack 0 true true false false [].

Definition set_stack (s : stackv) (st : scanState) : scanState :=
  mkScan s (lastTime st) (first st) (firstMassaged st) (afterDwz st)
    (afterMakeTest st) (cached st).
Definition set_lastTime (t : Z) (st : scanState) : scanState :=
  mkScan (stack st) t (first st) (firstMassaged st) (afterDwz st)
    (afterMakeTest st) (cached st).
Definition set_first (b : bool) (st : scanState) : scanState :=
  mkScan (stack st) (lastTime st) b (firstMassaged st) (afterDwz st)
    (afterMakeTest st) (cached st).
Definition set_firstMassaged (b : bool) (st : scanState) : scanState :=
  mkScan (stack st) (lastTime st) (first st) b (afterDwz st)
    (afterMakeTest st) (cached st).
Definition set_afterDwz (b : bool) (st : scanState) : scanState :=
  mkScan (stack st) (lastTime st) (first st) (firstMassaged st) b
    (afterMakeTest st) (cached st).
Definition set_afterMakeTest (b : bool) (st : scanState) : scanState :=
  mkScan (stack st) (lastTime st) (first st) (firstMassaged st) (afterDwz st)
    b (cached st).
Definition set_cached (c : list logline) (st : scanState) : scanState :=
  mkScan (stack st) (lastTime st) (first st) (firstMassaged st) (afterDwz st)
    (afterMakeTest st) c.

(** State of one iteration's emission phase: the loop state, the latch
    [emitted], the variable [ll] (which [dumpCached] reassigns) and the
    lines printed so far in this iteration. *)
Record rstate := mkR {
  sc : scanState;
  emitted : bool;
  ll : logline;
  out : list string
}.

Definition with_sc (f : scanState -> scanState) (r : rstate) : rstate :=
  mkR (f (sc r)) (emitted r) (ll r) (out r).
Definition set_emitted (b : bool) (r : rstate) : rstate :=
  mkR (sc r) b (ll r) (out r).
Definition set_ll (l : logline) (r : rstate) : rstate :=
  mkR (sc r) (emitted r) l (out r).
(** [fmt.Printf("%s\n", s)] *)
Definition printLine (s : string) (r : rstate) : rstate :=
  mkR (sc r) (emitted r) (ll r) (out r ++ [s])%list.

(** [fmt.Printf("% 4d", n)] for the [n > 0] it is used with. *)
Definition decimal (n : Z) : string := NilEmpty.string_of_int (Z.to_int n).

Fixpoint spaces (k : nat) : string :=
  match k with O => EmptyString | S k' => String " " (spaces k') end.

Definition fmtSpace4d (n : Z) : string :=
  let s := " " ++ decimal n in spaces (4 - String.length s) ++ s.

Definition massagedHeader : string := "  ΔT" ++ TAB ++ "TEXT".

(** The trailing ["\n"] (and then ["\r"]) removal of [emitMassaged]. *)
Definition stripNL (t : string) : string :=
  if endsWith chNL t then
    let t := dropLast t in if endsWith chCR t then dropLast t else t
  else t.

(** The closure [emitMassaged]. *)
Definition emitMassaged (t : string) (r : rstate) : rstate :=
  let r := if firstMassaged (sc r)
           then printLine massagedHeader (with_sc (set_firstMassaged false) r)
           else r in
  let t := stripNL t in
  let dt := (time (ll r) - lastTime (sc r))%Z in
  let r := if (0 <? dt)%Z then printLine (fmtSpace4d dt ++ TAB ++ t) r
           else printLine ("    " ++ TAB ++ t) r in
  with_sc (set_lastTime (time (ll r))) r.

(** The closure [emitText]. *)
Definition emitText (r : rstate) : rstate :=
  if emitted r then r else emitMassaged (text (ll r)) (set_emitted true r).

(** The closure [emitRaw]. *)
Definition emitRaw (r : rstate) : rstate :=
  if emitted r then r else printLine (raw (ll r)) (set_emitted true r).

Definition topIs (r : rstate) (s : string) : bool := topOfStackIs (stack (sc r)) s.
Definition has_tag (r : rstate) (s : string) : bool := stackHas (stack (sc r)) s.

(** *** The display rules of one iteration, in source order *)

Definition ruleShowRoot (mode : Z) (r : rstate) : rstate :=
  if has mode modeShowRoot then
    if (slen (stack (sc r)) =? 0)%nat then
      if has mode modeMassaged then emitText r else emitRaw r
    else r
  else r.

Definition ruleShowStep1 (mode : Z) (r : rstate) : rstate :=
  if has mode modeShowStep1 then
    if has_tag r "Step 1/2" then
      if has mode modeMassaged then emitText r else emitRaw r
    else r
  else r.

Definition ruleShowStep2 (mode : Z) (r : rstate) : rstate :=
  if has mode modeShowStep2 || has mode modeShowStep2Top then
    if has_tag r "Step 2/2" || has_tag r "Step 1/1" then
      let shouldShow := true in
      let shouldShow :=
        if has mode modeSkipBeforeDwz && negb (afterDwz (sc r)) then false else shouldShow in
      let shouldShow :=
        if has mode modeSkipJson && (match testEvt (ll r) with Some _ => true | None => false end) then false else shouldShow in
      let shouldShow :=
        if has mode modeShowStep2Top && negb (topIs r "Step 2/2") then false else shouldShow in
      let shouldShow :=
        if has mode modeSkipBeforeMakeTest && negb (afterMakeTest (sc r)) then false else shouldShow in
      if shouldShow then
        if has mode modeMassaged then
          if negb (topIs r "Test Output") then emitText r else r
        else
          if topIs r "Test Output" then
            if has mode modeShowTestOutput then emitRaw r else r
          else emitRaw r
      else r
    else r
  else r.

Definition ruleShowTestOutput (mode : Z) (r : rstate) : rstate :=
  if has mode modeShowTestOutput then
    if topIs r "Test Output" then
      if has mode modeMassaged then emitMassaged (addtext (ll r)) r
      else printLine (addtext (ll r)) r
    else r
  else r.

Definition ruleGoLine (mode : Z) (buildStep : bool) (r : rstate) : rstate :=
  if has mode modeShowOnlyFailed && buildStep && hasPrefix (text (ll r)) "Go "
  then emitText r else r.

Definition ruleOutputActions (mode : Z) (r : rstate) : rstate :=
  if has mode modeShowStep2OutputActions then
    match testEvt (ll r) with
    | Some te => if String.eqb (Action te) "output" then emitMassaged (Output te) r else r
    | None => r
    end
  else r.

Definition ruleFailLine (mode : Z) (r : rstate) : rstate :=
  match testEvt (ll r) with
  | Some te =>
      if negb (has mode modeShowOnlyFailed) && String.eqb (Action te) "fail"
         && negb (has mode modeShowStep2OutputActions)
      then emitMassaged ("FAIL" ++ TAB ++ Package te) r else r
  | None => r
  end.

(** The closure [dumpCached]: [ll = cached[i]] then the [switch].  Every
    buffered record carries an event (only such records are appended), so
    the [None] branch, a nil dereference in Go, is never taken. *)
Definition dumpCachedStep (r : rstate) (c : logline) : rstate :=
  let r := set_ll c r in
  match testEvt c with
  | Some te => if String.eqb (Action te) "output" then emitMassaged (Output te) r else r
  | None => r
  end.

Definition dumpCached (r : rstate) : rstate :=
  let r := fold_left dumpCachedStep (cached (sc r)) r in
  with_sc (set_cached []) r.

Definition clearCached (r : rstate) : rstate := with_sc (set_cached []) r.

Section OnlyFailed.
Variable fmtG : float -> string.  (* [fmt.Sprintf("%g", f)] *)

Definition ruleOnlyFailed (mode : Z) (r : rstate) : rstate :=
  if has mode modeShowOnlyFailed then
    match testEvt (ll r) with
    | None => r
    | Some te =>
        let r := with_sc (set_cached (cached (sc r) ++ [ll r])%list) r in
        if String.eqb (Test te) "" then
          if String.eqb (Action te) "pass" then
            clearCached (emitMassaged (Package te ++ TAB ++ fmtG (Elapsed te) ++ "s") r)
          else if String.eqb (Action te) "skip" then
            clearCached (emitMassaged (Package te ++ TAB ++ "[no test files]") r)
          else if String.eqb (Action te) "output" then r
          else if String.eqb (Action te) "fail" then
            let savedll := ll r in
            let r := dumpCached r in
            let r := set_ll savedll r in
            clearCached (emitMassaged (Package te ++ TAB ++ "FAIL") r)
          else
            clearCached (emitMassaged (Package te ++ TAB ++ Action te) r)
        else
          if String.eqb (Action te) "pass" then clearCached r
          else if String.eqb (Action te) "fail" then dumpCached r
          else r
    end
  else r.

End OnlyFailed.

(** *** One iteration and the main loop *)

(** [buildStep := topOfStackIs("Step 2/2") || topOfStackIs("Step 1/1")] *)
Definition isBuildStep (stk : stackv) : bool :=
  topOfStackIs stk "Step 2/2" || topOfStackIs stk "Step 1/1".

Section Engine.
(** [json.Unmarshal([]byte(ll.text), te)]: [Some te] when it returns a nil
    error, with the decoded fields. *)
Variable decodeEvent : string -> option testEvent.
Variable fmtG : float -> string.

(** The structured-event extraction, guarded by [buildStep]. *)
Definition extractEvent (buildStep : bool) (ll0 : logline) : logline :=
  if buildStep then
    match text ll0 with
    | String c _ =>
        if Ascii.eqb c "{" then
          match decodeEvent (text ll0) with
          | Some te => if negb (String.eqb (Action te) "") then set_testEvt (Some te) ll0 else ll0
          | None => ll0
          end
        else ll0
    | EmptyString => ll0
    end
  else ll0.

(** The phase flags and the [first] initialisation of [lastTime]. *)
Definition updateFlags (buildStep : bool) (l : logline) (st : scanState) : scanState :=
  let st := if negb (afterDwz st) then
              if buildStep then
                if hasPrefix (text l) "+ dwz --version" then set_afterDwz true st else st
              else st
            else st in
  let st := if negb (afterMakeTest st) then
              if buildStep then
                if hasPrefix (text l) "+ make test" then set_afterMakeTest true st else st
              else st
            else st in
  let st := if negb (afterDwz st) || negb (afterMakeTest st) then
              if buildStep then
                if hasPrefix (text l) "Finding latest patch"
                then set_afterDwz true (set_afterMakeTest true st) else st
              else st
            else st in
  if first st then set_lastTime (time l) (set_first false st) else st.

(** The emission phase: [emitted := false], then every rule in order. *)
Definition display (mode : Z) (buildStep : bool) (st : scanState) (l : logline)
  : scanState * list string :=
  let r := mkR st false l [] in
  let r := ruleShowRoot mode r in
  let r := ruleShowStep1 mode r in
  let r := ruleShowStep2 mode r in
  let r := ruleShowTestOutput mode r in
  let r := ruleGoLine mode buildStep r in
  let r := ruleOutputActions mode r in
  let r := ruleFailLine mode r in
  let r := ruleOnlyFailed fmtG mode r in
  (sc r, out r).

(** Everything after [treeize] and the [addtext] read. *)
Definition processRecord (mode : Z) (st : scanState) (l : logline)
  : scanState * list string :=
  let buildStep := isBuildStep (stack st) in
  let l := extractEvent buildStep l in
  let st := updateFlags buildStep l st in
  display mode buildStep st l.

Inductive outcome := Finished | Panicked (reason : string).

(** The main [for s.Scan()] loop over the remaining lines. *)
Fixpoint mainLoop (mode : Z) (st : scanState) (lines : list string)
  : list string * outcome :=
  match lines with
  | [] => ([], Finished)
  | line :: rest =>
      if has mode modeRawText then
        let '(o, res) := mainLoop mode st rest in (line :: o, res)
      else if hasSuffix line " tests processed." then
        ((if has mode modeShowHeader then [line] else []), Finished)
      else if hasPrefix line "Current time: " then
        ([line], Finished)
      else
        match logparse line with
        | PPanic e => ([], Panicked e)
        | PNil => mainLoop mode st rest
        | POk l =>
            match treeize (stack st) l with
            | inl e => ([], Panicked e)
            | inr stk =>
                let st := set_stack stk st in
                if topOfStackIs stk "Test Output" then
                  match rest with
                  | [] => ([], Panicked "test output not followed by a line")
                  | a :: rest' =>
                      let '(st, o) := processRecord mode st (set_addtext a l) in
                      let '(o', res) := mainLoop mode st rest' in
                      (o ++ o', res)%list
                  end
                else
                  let '(st, o) := processRecord mode st l in
                  let '(o', res) := mainLoop mode st rest in
                  (o ++ o', res)%list
            end
        end
  end.

(** The header loop: echo (if shown) up to and including the first blank
    line; returns what it printed and, when it broke at the blank line, the
    lines left to scan ([None]: [Scan] returned false). *)
Fixpoint headerLoop (mode : Z) (lines : list string)
  : list string * option (list string) :=
  match lines with
  | [] => ([], None)
  | line :: rest =>
      let o := if has mode modeShowHeader then [line] else [] in
      if String.eqb line "" then (o, Some rest)
      else let '(o', rest') := headerLoop mode rest in ((o ++ o')%list, rest')
  end.

(** [cleanupLog(logbody, verbose)]: the lines printed and how the run ended.
    The main loop's [Scan] calls go on where the header loop stopped: after
    the blank line, on the remaining tokens; after a [false], once more,
    which yields the buffered chunk after an [ErrTooLong] and nothing at the
    end of the stream.  The main loop itself never calls [Scan] again after
    a [false]. *)
Definition cleanupLog (logbody : string) (verbose : Z) : list string * outcome :=
  let mode := modeOf verbose in
  let '(lines, stop) := scanLines logbody in
  let '(h, rest) := headerLoop mode lines in
  let rest := match rest with
              | Some r => r
              | None => match stop with Some chunk => [chunk] | None => [] end
              end in
  let '(o, res) := mainLoop mode initScan rest in
  ((h ++ o)%list, res).

End Engine.

(** ** The caller: [main] of [src/unnamed/part_001] (lines 809-885)

    Only the argument and environment handling is embedded; each branch
    is named by the work it starts (HTTP requests, [git], the regular
    expression filter are not modelled). *)

(** [strconv.Atoi] at any length: below 19 bytes the fast path [Atoi]
    above; from 19 bytes on [ParseInt(s, 10, 0)], which accepts the same
    syntax (an optional sign, then at least one decimal digit) and fails
    outside the [int64] range. *)
Definition AtoiInt64 (s : string) : option Z :=
  match Atoi s with
  | Some n => if ((- 2 ^ 63 <=? n) && (n <? 2 ^ 63))%Z then Some n else None
  | None => None
  end.

(** The [for i := 2; i < len(os.Args); i++] loop of [case "log"]. *)
Fixpoint logArgs (args : list string) (verbose : Z) (logarg : string) : Z * string :=
  match args with
  | [] => (verbose, logarg)
  | a :: rest =>
      if hasPrefix a "-v"
      then logArgs rest (verbose + Z.of_nat (String.length a) - 1)%Z logarg
      else logArgs rest verbose a
  end.

(** Where [case "log"] takes the log from: [usage()] when no argument is
    left, [downloadLog(buildId)] when [Atoi] succeeds, [os.Open] otherwise. *)
Inductive logSource :=
  | LogUsage
  | LogDownload (buildId : Z)
  | LogFile (path : string).

Definition logCommand (args : list string) : Z * logSource :=
  let '(verbose, logarg) := logArgs args 0 "" in
  if String.eqb logarg "" then (verbose, LogUsage)
  else match AtoiInt64 logarg with
       | Some id => (verbose, LogDownload id)
       | None => (verbose, LogFile logarg)
       end.

(** What [main] goes on to do. *)
Inductive command :=
  | CmdUsage                                (* usage(): message, exit 1 *)
  | CmdEnvMissing (messages : list string)  (* messages to stderr, exit 1 *)
  | CmdStatus (buildId : string)
  | CmdBuildTypes
  | CmdLog (verbose : Z) (src : logSource)  (* then cleanupLog(logbody, verbose) *)
  | CmdDiff
  | CmdTrigger (regex : string)             (* regexp.MustCompile(regex) *)
  | CmdPanic (reason : string).

(** [main], on [os.Args] and the two environment variables. *)
Definition mainCommand (osArgs : list string) (token host : string) : command :=
  if (List.length osArgs <? 2)%nat then CmdUsage
  else if String.eqb token "" || String.eqb host "" then
    CmdEnvMissing ((if String.eqb token "" then ["TEAMCITY_TOKEN not defined"] else [])
                   ++ (if String.eqb host "" then ["TEAMCITY_HOST not defined"] else []))%list
  else
    let cmd := nth 1 osArgs "" in
    if String.eqb cmd "status" then
      match nth_error osArgs 2 with
      | Some id => CmdStatus id
      | None => CmdPanic "index out of range"
      end
    else if String.eqb cmd "buildtypes" then CmdBuildTypes
    else if String.eqb cmd "log" then
      let '(verbose, src) := logCommand (skipn 2 osArgs) in CmdLog verbose src
    else if String.eqb cmd "diff" then CmdDiff
    else CmdTrigger ("(?i:" ++ cmd ++ ")").

(** ** Reference definitions and concrete inputs used by the statements *)

(** The only-failed flush as the spec words it: in buffer order, every
    buffered event whose action is ["output"] has its output fragment
    printed in massaged form, timed by its own record; [ll] is kept. *)
Fixpoint flushOutputs (buf : list logline) (r : rstate) : rstate :=
  match buf with
  | [] => r
  | c :: buf' =>
      let r := match testEvt c with
               | Some e =>
                   if String.eqb (Action e) "output"
                   then set_ll (ll r) (emitMassaged (Output e) (set_ll c r))
                   else r
               | None => r
               end in
      flushOutputs buf' r
  end.




Fixpoint tabs (n : nat) : string :=
  match n with O => EmptyString | S n' => String chTAB (tabs n') end.

Fixpoint hasChar (ch : ascii) (s : string) : bool :=
  match s with
  | EmptyString => false
  | String c s' => Ascii.eqb c ch || hasChar ch s'
  end.


(** A record of depth 2 tagged [Step 2/2]. *)
Definition stepRecord : logline :=
  mkLogline "" 0 2 ["Step 2/2"] "" "" None.

(** A log line at [10:00:00] with flag byte [' '], one tab, then [s]. *)
Definition logAt (hms : string) (s : string) : string :=
  "[" ++ hms ++ "] :" ++ TAB ++ s.

Definition q (s : string) : string := String chQUOTE s ++ String chQUOTE EmptyString.

(** [go test -json] lines of the examples. *)
Definition jsonOutputX : string :=
  "{" ++ q "Action" ++ ":" ++ q "output" ++ "," ++ q "Package" ++ ":" ++ q "A"
  ++ "," ++ q "Output" ++ ":" ++ q "x" ++ "}".
Definition jsonFailA : string :=
  "{" ++ q "Action" ++ ":" ++ q "fail" ++ "," ++ q "Package" ++ ":" ++ q "A" ++ "}".
Definition jsonPassA : string :=
  "{" ++ q "Action" ++ ":" ++ q "pass" ++ "," ++ q "Package" ++ ":" ++ q "A"
  ++ "," ++ q "Elapsed" ++ ":1.5}".

Definition evOutputX : testEvent := mkTestEvent "" "output" "A" "" 0%float "x".
Definition evFailA : testEvent := mkTestEvent "" "fail" "A" "" 0%float "".
Definition evPassA : testEvent := mkTestEvent "" "pass" "A" "" 1.5%float "".

(** A two-event log: header, then two [Step 2/2] records. *)
Definition twoEventLog (j1 j2 : string) : string :=
  NL ++ logAt "10:00:00" ("[Step 2/2] " ++ j1) ++ NL
     ++ logAt "10:00:00" ("[Step 2/2] " ++ j2) ++ NL.

(** A decoder that knows exactly the three example lines. *)
Definition exampleDecode (s : string) : option testEvent :=
  if String.eqb s jsonOutputX then Some evOutputX
  else if String.eqb s jsonFailA then Some evFailA
  else if String.eqb s jsonPassA then Some evPassA
  else None.

(** [%g] on the one value the examples format. *)
Definition exampleFmtG (f : float) : string :=
  if PrimFloat.eqb f 1.5%float then "1.5" else "".

Definition noEvents (s : string) : option testEvent := None.
Definition noFloats (f : float) : string := "".

(** Header, then one record at depth 1 tagged [tag] with text [t]. *)
Definition stepLog (tag t : string) : string :=
  NL ++ logAt "10:00:00" ("[" ++ tag ++ "] " ++ t) ++ NL.

(** Header, then a [Test Output] record under [Step 1/2] and its line. *)
Definition step1TestOutputLog : string :=
  NL ++ "[10:00:00] :" ++ TAB ++ TAB ++ "[Step 1/2] [Test Output] hello" ++ NL
     ++ "aux" ++ NL.

(** Header, then the end sentinel. *)
Definition currentTimeLog : string := NL ++ "Current time: 1" ++ NL.

(** A record at depth 21 without tags. *)
Definition deepRecord : logline :=
  mkLogline "" 0 21 [] "" "" None.

Definition rowOf (s : string) : string := "    " ++ TAB ++ s.

(** A tag prefix as the build server writes it: every tag in brackets,
    followed by one space. *)
Fixpoint formatTags (ts : list string) : string :=
  match ts with
  | [] => EmptyString
  | t :: ts' => "[" ++ t ++ "] " ++ formatTags ts'
  end.

(** What a display step leaves alone: the stack, the phase flags and
    [first]; [keepsAll] adds the buffer and the current record. *)
Definition keepsFlags (r r' : rstate) : Prop :=
  stack (sc r') = stack (sc r) /\ afterDwz (sc r') = afterDwz (sc r) /\
  afterMakeTest (sc r') = afterMakeTest (sc r) /\ first (sc r') = first (sc r).

Definition keepsAll (r r' : rstate) : Prop :=
  keepsFlags r r' /\ cached (sc r') = cached (sc r) /\ ll r' = ll r.

(** The fixed prefix [logparse] reads: [[HH:MM:SS]F:], twelve bytes with
    ['['], [':'], [':'], [']'], [':'] at offsets 0, 3, 6, 9 and 11. *)
Definition stampShaped (line : string) : bool :=
  (12 <=? String.length line)%nat
  && match get 0 line, get 3 line, get 6 line, get 9 line, get 11 line with
     | Some a, Some b, Some c, Some d, Some e =>
         Ascii.eqb a "[" && Ascii.eqb b ":" && Ascii.eqb c ":" && Ascii.eqb d "]"
         && Ascii.eqb e ":"
     | _, _, _, _, _ => false
     end.

(** The verbosity the [log] loop adds up: [len(arg) - 1] for every
    argument starting with ["-v"], the others contributing nothing. *)
Fixpoint vsum (args : list string) : Z :=
  match args with
  | [] => 0
  | a :: rest => if hasPrefix a "-v" then (Z.of_nat (String.length a) - 1 + vsum rest)%Z
                 else vsum rest
  end.

(** An ASCII decimal digit. *)
Definition isDigit (c : ascii) : bool :=
  (48 <=? nat_of_ascii c)%nat && (nat_of_ascii c <=? 57)%nat.

Fixpoint allDigits (s : string) : bool :=
  match s with
  | EmptyString => true
  | String c s' => isDigit c && allDigits s'
  end.

(** * Proofs *)

(** ** The context stack *)

Module StackFacts.

Lemma upd_length : forall a i x, List.length (upd a i x) = List.length a.
Proof. induction a as [|y a IH]; intros [|i] x; simpl; auto. Qed.

Lemma nth_upd : forall a i x j,
  nth j (upd a i x) "" =
  if (Nat.eqb i j && (i <? List.length a))%nat then x else nth j a "".
Proof.
  induction a as [|y a IH]; intros i x j.
  - simpl. rewrite Bool.andb_false_r. destruct j; reflexivity.
  - destruct i as [|i], j as [|j]; simpl; auto.
Qed.

Lemma zero_fill_length : forall k p a,
  List.length (fold_left (fun a i => upd a i EmptyString) (seq p k) a) = List.length a.
Proof.
  induction k as [|k IH]; intros p a; simpl; auto.
  rewrite IH. apply upd_length.
Qed.

Lemma nth_zero_fill : forall k p a j,
  nth j (fold_left (fun a i => upd a i EmptyString) (seq p k) a) "" =
  if ((p <=? j) && (j <? p + k) && (j <? List.length a))%nat then "" else nth j a "".
Proof.
  induction k as [|k IH]; intros p a j; simpl.
  - destruct (p <=? j)%nat eqn:E1; destruct (j <? p + 0)%nat eqn:E2; simpl; auto.
    apply Nat.leb_le in E1. apply Nat.ltb_lt in E2. lia.
  - rewrite IH, upd_length, nth_upd.
    destruct (Nat.eqb p j) eqn:Epj.
    + apply Nat.eqb_eq in Epj; subst.
      replace (S j <=? j)%nat with false by (symmetry; apply Nat.leb_gt; lia).
      replace (j <=? j)%nat with true by (symmetry; apply Nat.leb_le; lia).
      replace (j <? j + S k)%nat with true by (symmetry; apply Nat.ltb_lt; lia).
      simpl. reflexivity.
    + apply Nat.eqb_neq in Epj.
      rewrite Bool.andb_false_l.
      destruct (S p <=? j)%nat eqn:E1; destruct (p <=? j)%nat eqn:E2;
        destruct (j <? S p + k)%nat eqn:E3; destruct (j <? p + S k)%nat eqn:E4;
        simpl; auto;
        repeat match goal with
        | H : (_ <=? _)%nat = true |- _ => apply Nat.leb_le in H
        | H : (_ <=? _)%nat = false |- _ => apply Nat.leb_gt in H
        | H : (_ <? _)%nat = true |- _ => apply Nat.ltb_lt in H
        | H : (_ <? _)%nat = false |- _ => apply Nat.ltb_ge in H
        end; lia.
Qed.

Lemma writeTags_panics : forall len ntags ts a i,
  (exists e, writeTags a len ntags i ts = inl e) <->
  (ts <> [] /\ (Z.of_nat len - Z.of_nat ntags + Z.of_nat i < 0)%Z).
Proof.
  intros len ntags ts. induction ts as [|t ts IH]; intros a i; simpl.
  - split; [intros [e H]; discriminate | intros [H _]; congruence].
  - destruct (Z.of_nat len - Z.of_nat ntags + Z.of_nat i <? 0)%Z eqn:E.
    + apply Z.ltb_lt in E. split; [intros _; split; [discriminate | exact E] | intros _; eexists; reflexivity].
    + apply Z.ltb_ge in E. rewrite IH. split.
      * intros [_ H]. lia.
      * intros [_ H]. lia.
Qed.

Lemma writeTags_ok : forall len ntags ts a i,
  (ntags <= len)%nat ->
  (len - ntags + i + List.length ts <= List.length a)%nat ->
  exists a', writeTags a len ntags i ts = inr a' /\
    List.length a' = List.length a /\
    forall j, nth j a' "" =
      if ((len - ntags + i <=? j) && (j <? len - ntags + i + List.length ts))%nat
      then nth (j - (len - ntags + i)) ts ""
      else nth j a "".
Proof.
  intros len ntags ts. induction ts as [|t ts IH]; intros a i Hn Hl; simpl.
  - exists a. repeat split. intros j.
    destruct (len - ntags + i <=? j)%nat eqn:E1; destruct (j <? len - ntags + i + 0)%nat eqn:E2;
      simpl; auto.
    apply Nat.leb_le in E1. apply Nat.ltb_lt in E2. lia.
  - simpl in Hl.
    replace (Z.of_nat len - Z.of_nat ntags + Z.of_nat i <? 0)%Z with false
      by (symmetry; apply Z.ltb_ge; lia).
    replace (Z.to_nat (Z.of_nat len - Z.of_nat ntags + Z.of_nat i))
      with (len - ntags + i)%nat by lia.
    destruct (IH (upd a (len - ntags + i) t) (S i)) as [a' [Hw [Hlen Hnth]]];
      [exact Hn | rewrite upd_length; lia |].
    exists a'. split; [exact Hw|]. split; [rewrite Hlen; apply upd_length|].
    intros j. rewrite Hnth, nth_upd.
    destruct (Nat.eqb (len - ntags + i) j) eqn:Ej.
    + apply Nat.eqb_eq in Ej. subst j.
      replace (len - ntags + S i <=? len - ntags + i)%nat with false
        by (symmetry; apply Nat.leb_gt; lia).
      replace (len - ntags + i <? List.length a)%nat with true
        by (symmetry; apply Nat.ltb_lt; lia).
      replace (len - ntags + i <=? len - ntags + i)%nat with true
        by (symmetry; apply Nat.leb_le; lia).
      replace (len - ntags + i <? len - ntags + i + S (List.length ts))%nat with true
        by (symmetry; apply Nat.ltb_lt; lia).
      rewrite Nat.sub_diag. reflexivity.
    + apply Nat.eqb_neq in Ej. simpl.
      destruct (len - ntags + S i <=? j)%nat eqn:E1;
        destruct (j <? len - ntags + S i + List.length ts)%nat eqn:E2;
        destruct (len - ntags + i <=? j)%nat eqn:E3;
        destruct (j <? len - ntags + i + S (List.length ts))%nat eqn:E4;
        simpl;
        repeat match goal with
        | H : (_ <=? _)%nat = true |- _ => apply Nat.leb_le in H
        | H : (_ <=? _)%nat = false |- _ => apply Nat.leb_gt in H
        | H : (_ <? _)%nat = true |- _ => apply Nat.ltb_lt in H
        | H : (_ <? _)%nat = false |- _ => apply Nat.ltb_ge in H
        end; try lia; auto.
      replace (j - (len - ntags + i))%nat with (S (j - (len - ntags + S i)))%nat by lia.
      reflexivity.
Qed.

End StackFacts.

Ltac bool_facts :=
  repeat match goal with
  | H : (_ <=? _)%nat = true |- _ => apply Nat.leb_le in H
  | H : (_ <=? _)%nat = false |- _ => apply Nat.leb_gt in H
  | H : (_ <? _)%nat = true |- _ => apply Nat.ltb_lt in H
  | H : (_ <? _)%nat = false |- _ => apply Nat.ltb_ge in H
  end.

(** C10: [treeize] is partial.  On a stack of capacity 20 it panics exactly
    when the record has more tags than its depth or a depth above 20; it
    returns a stack whenever [len(tags) <= indent <= 20]. *)
Theorem treeize_panics_iff : forall stk l,
  List.length (arr stk) = 20%nat ->
  (exists e, treeize stk l = inl e) <->
  (indent l < List.length (tags l) \/ 20 < indent l)%nat.
Proof.
  intros stk l Hcap. unfold treeize. rewrite Hcap.
  destruct (20 <? indent l)%nat eqn:E.
  - apply Nat.ltb_lt in E.
    split; [intros _; right; exact E | intros _; eexists; reflexivity].
  - apply Nat.ltb_ge in E.
    match goal with |- context [writeTags ?a ?x ?y ?z ?w] =>
      pose proof (StackFacts.writeTags_panics x y w a z) as P;
      destruct (writeTags a x y z w) eqn:W end.
    + split; [intros _ | intros _; eexists; reflexivity].
      destruct (proj1 P (ex_intro _ _ eq_refl)) as [_ Hz]. left. lia.
    + split; [intros [e H]; discriminate |].
      intros [H | H]; [| lia]. exfalso.
      destruct (proj2 P) as [e He]; [| discriminate].
      split; [intros Ht; rewrite Ht in H; simpl in H; lia | lia].
Qed.

(** C7 (as stated, refuted): a record of depth 21 without tags satisfies
    [d >= len(tags)], yet [treeize] panics on it instead of leaving a stack
    of length 21. *)
Lemma treeize_deep_record_panics :
  ~ (exists stk', treeize initStack deepRecord = inr stk' /\ slen stk' = indent deepRecord).
Proof. intros [stk' [H _]]. vm_compute in H. discriminate. Qed.

(** C7 (amended): on a stack of capacity 20, for a record with
    [len(tags) <= indent <= 20], [treeize] returns a stack of length
    [indent] whose last [len(tags)] slots are the tags in order, and whose
    slots from the previous length up to the first tag slot are [""].
    A record deeper than 20 makes [treeize] panic. *)
Theorem treeize_context_path : forall stk l,
  List.length (arr stk) = 20%nat ->
  ((List.length (tags l) <= indent l <= 20)%nat ->
   exists stk', treeize stk l = inr stk' /\
     List.length (arr stk') = 20%nat /\
     slen stk' = indent l /\
     List.length (visible stk') = indent l /\
     skipn (indent l - List.length (tags l)) (visible stk') = tags l /\
     (forall i, (slen stk <= i < indent l - List.length (tags l))%nat ->
                nth i (visible stk') "" = "")) /\
  ((20 < indent l)%nat -> exists e, treeize stk l = inl e).
Proof.
  intros stk l Hcap. split.
  2: { intros Hd. unfold treeize. rewrite Hcap.
       replace (20 <? indent l)%nat with true by (symmetry; apply Nat.ltb_lt; exact Hd).
       eexists. reflexivity. }
  intros [Ht Hd]. unfold treeize. rewrite Hcap.
  replace (20 <? indent l)%nat with false by (symmetry; apply Nat.ltb_ge; lia).
  set (a := fold_left (fun a i => upd a i EmptyString)
              (seq (slen stk) (indent l - slen stk)) (arr stk)).
  assert (Ha : List.length a = 20%nat)
    by (unfold a; rewrite StackFacts.zero_fill_length; exact Hcap).
  destruct (StackFacts.writeTags_ok (indent l) (List.length (tags l)) (tags l) a 0 Ht)
    as [a' [W [Hlen Hnth]]]; [lia |].
  rewrite W. eexists. split; [reflexivity |].
  unfold visible; simpl.
  split; [lia |]. split; [reflexivity |].
  split; [rewrite length_firstn; lia |].
  split.
  - apply nth_ext with (d := "") (d' := "").
    + rewrite length_skipn, length_firstn. lia.
    + intros n Hn. rewrite length_skipn, length_firstn in Hn.
      rewrite nth_skipn, nth_firstn.
      replace (indent l - List.length (tags l) + n <? indent l)%nat with true
        by (symmetry; apply Nat.ltb_lt; lia).
      rewrite Hnth.
      replace ((indent l - List.length (tags l) + 0 <=? indent l - List.length (tags l) + n)
        && (indent l - List.length (tags l) + n <?
            indent l - List.length (tags l) + 0 + List.length (tags l)))%nat
        with true by (symmetry; apply andb_true_intro; split;
                      [apply Nat.leb_le | apply Nat.ltb_lt]; lia).
      f_equal. lia.
  - intros i Hi. rewrite nth_firstn.
    replace (i <? indent l)%nat with true by (symmetry; apply Nat.ltb_lt; lia).
    rewrite Hnth.
    replace (indent l - List.length (tags l) + 0 <=? i)%nat with false
      by (symmetry; apply Nat.leb_gt; lia).
    simpl. unfold a. rewrite StackFacts.nth_zero_fill.
    replace ((slen stk <=? i) && (i <? slen stk + (indent l - slen stk))
             && (i <? List.length (arr stk)))%nat
      with true by (symmetry; repeat rewrite Bool.andb_true_iff; repeat split;
                    first [apply Nat.leb_le | apply Nat.ltb_lt]; lia).
    reflexivity.
Qed.

Lemma treeize_panics_iff_witness :
  List.length (arr initStack) = 20%nat /\
  ((exists e, treeize initStack deepRecord = inl e) <->
   (indent deepRecord < List.length (tags deepRecord) \/ 20 < indent deepRecord)%nat).
Proof. split; [reflexivity | apply (treeize_panics_iff initStack deepRecord); reflexivity]. Defined.

Lemma treeize_context_path_witness :
  List.length (arr initStack) = 20%nat /\
  (List.length (tags stepRecord) <= indent stepRecord <= 20)%nat /\
  (exists stk', treeize initStack stepRecord = inr stk' /\
    List.length (arr stk') = 20%nat /\
    slen stk' = indent stepRecord /\
    List.length (visible stk') = indent stepRecord /\
    skipn (indent stepRecord - List.length (tags stepRecord)) (visible stk') = tags stepRecord /\
    (forall i, (slen initStack <= i < indent stepRecord - List.length (tags stepRecord))%nat ->
               nth i (visible stk') "" = "")) /\
  (20 < indent deepRecord)%nat /\
  exists e, treeize initStack deepRecord = inl e.
Proof.
  split; [reflexivity |]. split; [simpl; lia |]. split.
  - apply (proj1 (treeize_context_path initStack stepRecord ltac:(reflexivity))).
    simpl; lia.
  - split; [simpl; lia |].
    apply (proj2 (treeize_context_path initStack deepRecord ltac:(reflexivity))).
    simpl; lia.
Defined.

(** ** The scanner and raw mode *)

Module ScanFacts.


Lemma sapp_assoc : forall a b c, (a ++ b) ++ c = a ++ (b ++ c).
Proof. induction a as [|x a IH]; intros b c; simpl; [reflexivity | rewrite IH; reflexivity]. Qed.


Lemma endsWith_cons : forall ch a s,
  endsWith ch (String a s) =
  match s with EmptyString => Ascii.eqb a ch | _ => endsWith ch s end.
Proof. intros ch a s. unfold endsWith. destruct s; reflexivity. Qed.

Lemma endsWith_hasChar : forall ch s, endsWith ch s = true -> hasChar ch s = true.
Proof.
  intros ch s. induction s as [|a s IH]; [discriminate |].
  rewrite endsWith_cons. simpl. destruct s as [|b s'].
  - intros H. rewrite H. reflexivity.
  - intros H. rewrite (IH H). apply Bool.orb_true_r.
Qed.

















End ScanFacts.

(** ** The header loop *)

Module HeaderFacts.






End HeaderFacts.

Module RawMode.






End RawMode.







(** ** The line parser *)

Module ParseFacts.

Lemma substring_all : forall x, substring 0 (String.length x) x = x.
Proof. induction x as [|c x IH]; simpl; [reflexivity | rewrite IH; reflexivity]. Qed.

Lemma expectLen_2 : forall a b x,
  expectLen 2 (String a (String b x)) = inr (String a (String b ""), x).
Proof. intros. unfold expectLen. simpl. rewrite Nat.sub_0_r, substring_all. destruct x; reflexivity. Qed.

Lemma expectLen_1 : forall a x, expectLen 1 (String a x) = inr (String a "", x).
Proof. intros. unfold expectLen. simpl. rewrite Nat.sub_0_r, substring_all. destruct x; reflexivity. Qed.

Lemma hasPrefix_nil : forall s, hasPrefix s "" = true.
Proof. destruct s; reflexivity. Qed.

Lemma countTabs_tabs : forall n r,
  hasPrefix r TAB = false -> countTabs (tabs n ++ r) = (n, r).
Proof.
  induction n as [|n IH]; intros r H; simpl.
  - destruct r as [|c r]; [reflexivity |]. cbn [hasPrefix] in H. unfold TAB in H.
    cbn [hasPrefix] in H.
    rewrite hasPrefix_nil, Bool.andb_true_r, Ascii.eqb_sym in H. simpl. rewrite H. reflexivity.
  - rewrite IH by exact H. reflexivity.
Qed.

Lemma string_len2 : forall x, String.length x = 2%nat -> exists a b, x = String a (String b "").
Proof. intros [|a [|b [|c x]]] H; simpl in H; try discriminate; eauto. Qed.

Lemma string_len1 : forall x, String.length x = 1%nat -> exists a, x = String a "".
Proof. intros [|a [|b x]] H; simpl in H; try discriminate; eauto. Qed.

End ParseFacts.

(** C8: a line of the shape [[HH:MM:SS]F:] (two bytes per field, one flag
    byte), then [n] tabs, then a rest not starting with a tab, parses; its
    time is [hour*3600 + minute*60 + second], each field being its
    [strconv.Atoi] value or 0 when that fails, and its depth is [n]. *)
Theorem logparse_time_and_indent : forall h m s f n r,
  String.length h = 2%nat -> String.length m = 2%nat -> String.length s = 2%nat ->
  String.length f = 1%nat -> hasPrefix r TAB = false ->
  exists l,
    logparse ("[" ++ h ++ ":" ++ m ++ ":" ++ s ++ "]" ++ f ++ ":" ++ tabs n ++ r) = POk l /\
    time l = ((match Atoi h with Some k => k | None => 0 end) * 3600
              + (match Atoi m with Some k => k | None => 0 end) * 60
              + (match Atoi s with Some k => k | None => 0 end))%Z /\
    indent l = n.
Proof.
  intros h m s f n r Hh Hm Hs Hf Hr.
  destruct (ParseFacts.string_len2 h Hh) as (h1 & h2 & ->).
  destruct (ParseFacts.string_len2 m Hm) as (m1 & m2 & ->).
  destruct (ParseFacts.string_len2 s Hs) as (s1 & s2 & ->).
  destruct (ParseFacts.string_len1 f Hf) as (f1 & ->).
  unfold logparse. simpl String.append. cbv iota beta.
  rewrite Ascii.eqb_refl. cbv iota beta delta [negb].
  unfold logparse_body.
  repeat (first [ rewrite ParseFacts.expectLen_2 | rewrite ParseFacts.expectLen_1
                | progress cbn [pbind snd fst expectByte Ascii.eqb Bool.eqb andb] ]).
  rewrite ParseFacts.countTabs_tabs by exact Hr.
  destruct (tagsLoop _ _ _) as [tg rest].
  eexists. split; [reflexivity |]. split; [| reflexivity].
  simpl time. unfold atoiIgnoringErr. ring.
Qed.

Lemma logparse_time_and_indent_witness :
  exists l,
    logparse ("[" ++ "10" ++ ":" ++ "00" ++ ":" ++ "07" ++ "]" ++ " " ++ ":" ++ tabs 2
              ++ "[Step 2/2] x") = POk l /\
    time l = ((match Atoi "10" with Some k => k | None => 0 end) * 3600
              + (match Atoi "00" with Some k => k | None => 0 end) * 60
              + (match Atoi "07" with Some k => k | None => 0 end))%Z /\
    indent l = 2%nat.
Proof.
  apply (logparse_time_and_indent "10" "00" "07" " " 2 "[Step 2/2] x");
    reflexivity.
Defined.

(** ** The two spellings of the primary build step *)

(** C2: at verbosity 1 (and 0) a record whose innermost tag is
    [Step 1/1] is never shown by the primary-step rule, while the same
    record tagged [Step 2/2] is: the innermost-slot test of that rule
    compares with ["Step 2/2"] only. *)
Theorem step_1_1_not_equivalent_in_top_filter :
  cleanupLog noEvents noFloats (stepLog "Step 1/1" "Finding latest patch") verboseGoTestVerbose
    = ([""], Finished) /\
  cleanupLog noEvents noFloats (stepLog "Step 2/2" "Finding latest patch") verboseGoTestVerbose
    = ([""; massagedHeader; rowOf "Finding latest patch"], Finished) /\
  cleanupLog noEvents noFloats (stepLog "Step 1/1" "Finding latest patch") verboseNothing
    = ([""], Finished) /\
  cleanupLog noEvents noFloats (stepLog "Step 2/2" "Finding latest patch") verboseNothing
    = ([""; massagedHeader; rowOf "Finding latest patch"], Finished).
Proof. vm_compute. repeat split. Qed.

(** ** The end sentinel and unparsable lines *)

(** C5 (as stated, refuted): the line ["Current time: 1"] does not start
    with ['['] yet is printed at verbosity 2. *)
Lemma current_time_line_printed :
  In "Current time: 1" (fst (cleanupLog noEvents noFloats currentTimeLog verboseTestOutput)).
Proof. vm_compute. right. left. reflexivity. Qed.

(** C5 (amended): in a non-raw mode, a non-empty line that the main loop
    hands to the parser (not an end sentinel) and that does not start with
    ['['] parses to [nil], and the loop goes on with the next line in the
    same state and without printing anything. *)
Theorem nonbracket_line_skipped : forall dec g mode st line rest,
  has mode modeRawText = false ->
  line <> "" ->
  hasPrefix line "[" = false ->
  hasSuffix line " tests processed." = false ->
  hasPrefix line "Current time: " = false ->
  logparse line = PNil /\
  mainLoop dec g mode st (line :: rest) = mainLoop dec g mode st rest.
Proof.
  intros dec g mode st line rest Hraw Hne Hb Hsuf Hpre.
  assert (Hp : logparse line = PNil).
  { destruct line as [|c l]; [contradiction |].
    cbn [hasPrefix] in Hb. rewrite ParseFacts.hasPrefix_nil, Bool.andb_true_r in Hb.
    unfold logparse. rewrite Ascii.eqb_sym, Hb. reflexivity. }
  split; [exact Hp |].
  cbn [mainLoop]. rewrite Hraw, Hsuf, Hpre, Hp. reflexivity.
Qed.

Lemma nonbracket_line_skipped_witness :
  logparse "noise" = PNil /\
  mainLoop noEvents noFloats (modeOf verboseNothing) initScan ["noise"] =
  mainLoop noEvents noFloats (modeOf verboseNothing) initScan [].
Proof.
  apply (nonbracket_line_skipped noEvents noFloats (modeOf verboseNothing) initScan "noise" []);
    first [reflexivity | discriminate].
Defined.

(** ** The emission latch *)

(** C3 (as stated, refuted): at verbosity 2 one [Test Output] record under
    [Step 1/2] yields two rows, its own text from the [Step 1/2] rule and
    its auxiliary line from the test-output rule, which is not latched. *)
Lemma test_output_record_printed_twice :
  cleanupLog noEvents noFloats step1TestOutputLog verboseTestOutput =
  ([""; massagedHeader; rowOf "hello"; rowOf "aux"], Finished).
Proof. vm_compute. reflexivity. Qed.

(** ** The silent policy before the [make test] marker *)

(** C6 (as stated, refuted): in the silent policy a [Step 2/2] record
    whose text starts with ["Go "] is printed although no [make test]
    marker has been seen. *)
Lemma silent_prints_go_line_before_make_test :
  cleanupLog noEvents noFloats (stepLog "Step 2/2" "Go version go1.20") verboseNothing =
  ([""; massagedHeader; rowOf "Go version go1.20"], Finished).
Proof. vm_compute. reflexivity. Qed.

Module Latch.

Lemma emitted_emitMassaged : forall t r, emitted (emitMassaged t r) = emitted r.
Proof.
  intros t r. unfold emitMassaged. cbv zeta.
  destruct (firstMassaged (sc r)); destruct (0 <? _)%Z; reflexivity.
Qed.

Lemma emitText_latched : forall r, emitted r = true -> emitText r = r.
Proof. intros r H. unfold emitText. rewrite H. reflexivity. Qed.

Lemma emitRaw_latched : forall r, emitted r = true -> emitRaw r = r.
Proof. intros r H. unfold emitRaw. rewrite H. reflexivity. Qed.

Ltac own_line_cases :=
  cbv zeta;
  repeat match goal with
  | |- context [if ?b then _ else _] => destruct b
  end;
  first [left; reflexivity | right; left; reflexivity | right; right; reflexivity].

Lemma root_cases : forall mode r,
  ruleShowRoot mode r = r \/ ruleShowRoot mode r = emitText r \/ ruleShowRoot mode r = emitRaw r.
Proof. intros. unfold ruleShowRoot. own_line_cases. Qed.

Lemma step1_cases : forall mode r,
  ruleShowStep1 mode r = r \/ ruleShowStep1 mode r = emitText r \/ ruleShowStep1 mode r = emitRaw r.
Proof. intros. unfold ruleShowStep1. own_line_cases. Qed.

Lemma step2_cases : forall mode r,
  ruleShowStep2 mode r = r \/ ruleShowStep2 mode r = emitText r \/ ruleShowStep2 mode r = emitRaw r.
Proof. intros. unfold ruleShowStep2. own_line_cases. Qed.

Lemma go_cases : forall mode bs r,
  ruleGoLine mode bs r = r \/ ruleGoLine mode bs r = emitText r \/ ruleGoLine mode bs r = emitRaw r.
Proof. intros. unfold ruleGoLine. own_line_cases. Qed.

Lemma latched_noop : forall (f : rstate -> rstate) r,
  emitted r = true -> (f r = r \/ f r = emitText r \/ f r = emitRaw r) -> f r = r.
Proof.
  intros f r H [E | [E | E]]; rewrite E;
    [reflexivity | apply emitText_latched | apply emitRaw_latched]; exact H.
Qed.

End Latch.

(** C3 (amended): the rules that print the record's own line (root,
    [Step 1/2], primary step, ["Go "]) each either do nothing or call
    [emitText] or [emitRaw]; those set the latch, and with the latch set
    all four do nothing, so the record's own line is printed at most once.
    The test-output rule leaves the latch as it is; it, the output-action,
    [FAIL] and only-failed rules print through [emitMassaged], outside the
    latch. *)
Theorem own_line_latch : forall mode bs r,
  (emitted r = true ->
     ruleShowRoot mode r = r /\ ruleShowStep1 mode r = r /\
     ruleShowStep2 mode r = r /\ ruleGoLine mode bs r = r) /\
  (ruleShowRoot mode r = r \/ ruleShowRoot mode r = emitText r \/ ruleShowRoot mode r = emitRaw r) /\
  (ruleShowStep1 mode r = r \/ ruleShowStep1 mode r = emitText r \/ ruleShowStep1 mode r = emitRaw r) /\
  (ruleShowStep2 mode r = r \/ ruleShowStep2 mode r = emitText r \/ ruleShowStep2 mode r = emitRaw r) /\
  (ruleGoLine mode bs r = r \/ ruleGoLine mode bs r = emitText r \/ ruleGoLine mode bs r = emitRaw r) /\
  emitted (emitText r) = true /\ emitted (emitRaw r) = true /\
  emitted (ruleShowTestOutput mode r) = emitted r.
Proof.
  intros mode bs r.
  split.
  { intros H. repeat split; apply Latch.latched_noop; try exact H.
    - apply Latch.root_cases.
    - apply Latch.step1_cases.
    - apply Latch.step2_cases.
    - apply Latch.go_cases. }
  split; [apply Latch.root_cases |].
  split; [apply Latch.step1_cases |].
  split; [apply Latch.step2_cases |].
  split; [apply Latch.go_cases |].
  split.
  { unfold emitText. destruct (emitted r) eqn:E; [exact E |].
    rewrite Latch.emitted_emitMassaged. reflexivity. }
  split.
  { unfold emitRaw. destruct (emitted r) eqn:E; [exact E | reflexivity]. }
  unfold ruleShowTestOutput.
  destruct (has mode modeShowTestOutput); [| reflexivity].
  destruct (topIs r "Test Output"); [| reflexivity].
  destruct (has mode modeMassaged); [apply Latch.emitted_emitMassaged | reflexivity].
Qed.

Lemma own_line_latch_witness :
  let r := set_emitted true (mkR initScan false stepRecord []) in
  emitted r = true /\
  ruleShowRoot (modeOf verboseTestOutput) r = r /\ ruleShowStep1 (modeOf verboseTestOutput) r = r /\
  ruleShowStep2 (modeOf verboseTestOutput) r = r /\ ruleGoLine (modeOf verboseTestOutput) true r = r.
Proof.
  intros r. split; [reflexivity |].
  apply (proj1 (own_line_latch (modeOf verboseTestOutput) true r)). reflexivity.
Defined.

Module Silent.

Ltac silent_bits :=
  repeat match goal with
  | |- context [has (modeOf verboseNothing) ?f] =>
      let b := eval vm_compute in (has (modeOf verboseNothing) f) in
      change (has (modeOf verboseNothing) f) with b
  end.

Lemma root_off : forall r, ruleShowRoot (modeOf verboseNothing) r = r.
Proof. intros r. unfold ruleShowRoot. silent_bits. reflexivity. Qed.

Lemma step1_off : forall r, ruleShowStep1 (modeOf verboseNothing) r = r.
Proof. intros r. unfold ruleShowStep1. silent_bits. reflexivity. Qed.

Lemma step2_before_make_test : forall r,
  afterMakeTest (sc r) = false -> ruleShowStep2 (modeOf verboseNothing) r = r.
Proof.
  intros r H. unfold ruleShowStep2. silent_bits. cbv zeta. rewrite H. simpl.
  destruct (has_tag r "Step 2/2" || has_tag r "Step 1/1"); [| reflexivity].
  destruct (afterDwz (sc r)), (testEvt (ll r)), (topIs r "Step 2/2"); reflexivity.
Qed.

Lemma testoutput_off : forall r, ruleShowTestOutput (modeOf verboseNothing) r = r.
Proof. intros r. unfold ruleShowTestOutput. silent_bits. reflexivity. Qed.

Lemma go_off : forall bs r,
  hasPrefix (text (ll r)) "Go " = false -> ruleGoLine (modeOf verboseNothing) bs r = r.
Proof. intros bs r H. unfold ruleGoLine. rewrite H. rewrite Bool.andb_false_r. reflexivity. Qed.

Lemma outputactions_off : forall r, ruleOutputActions (modeOf verboseNothing) r = r.
Proof. intros r. unfold ruleOutputActions. silent_bits. reflexivity. Qed.

Lemma fail_off : forall r, ruleFailLine (modeOf verboseNothing) r = r.
Proof.
  intros r. unfold ruleFailLine. silent_bits. destruct (testEvt (ll r)); reflexivity.
Qed.

Lemma onlyfailed_no_event : forall g r,
  testEvt (ll r) = None -> ruleOnlyFailed g (modeOf verboseNothing) r = r.
Proof. intros g r H. unfold ruleOnlyFailed. silent_bits. rewrite H. reflexivity. Qed.

Lemma text_extractEvent : forall dec bs l, text (extractEvent dec bs l) = text l.
Proof.
  intros dec bs l. unfold extractEvent.
  destruct bs; [| reflexivity].
  destruct (text l) as [|c t] eqn:E.
  - exact E.
  - destruct (Ascii.eqb c "{"); [| exact E].
    destruct (dec (String c t)) as [te|]; [| exact E].
    destruct (negb (String.eqb (Action te) "")); exact E.
Qed.

Lemma afterMakeTest_stays : forall bs l st,
  afterMakeTest st = false ->
  hasPrefix (text l) "+ make test" = false ->
  hasPrefix (text l) "Finding latest patch" = false ->
  afterMakeTest (updateFlags bs l st) = false.
Proof.
  intros bs l st H1 H2 H3. unfold updateFlags. cbv zeta.
  destruct st as [stk lt fi fm ad am ca]; simpl in *. subst am.
  destruct ad, bs, fi, (hasPrefix (text l) "+ dwz --version");
    cbn [afterMakeTest afterDwz first negb orb andb set_afterDwz set_afterMakeTest
         set_lastTime set_first];
    rewrite ?H2, ?H3; reflexivity.
Qed.

End Silent.

(** C6 (amended): in the silent policy, while the [make test] marker (or
    the [Finding latest patch] fallback) has not been seen, a record that
    is not itself such a marker, whose text does not start with ["Go "] and
    that carries no structured event prints nothing.  The ["Go "] rule and
    the only-failed aggregation are not gated by the marker. *)
Theorem silent_quiet_before_make_test : forall dec g st l,
  afterMakeTest st = false ->
  hasPrefix (text l) "+ make test" = false ->
  hasPrefix (text l) "Finding latest patch" = false ->
  hasPrefix (text l) "Go " = false ->
  testEvt (extractEvent dec (isBuildStep (stack st)) l) = None ->
  snd (processRecord dec g (modeOf verboseNothing) st l) = [].
Proof.
  intros dec g st l Hm Hmk Hfl Hgo Hev.
  unfold processRecord, display. cbv zeta.
  rewrite Silent.root_off, Silent.step1_off.
  rewrite Silent.step2_before_make_test
    by (simpl; apply Silent.afterMakeTest_stays;
        [exact Hm | rewrite Silent.text_extractEvent; exact Hmk
                  | rewrite Silent.text_extractEvent; exact Hfl]).
  rewrite Silent.testoutput_off.
  rewrite Silent.go_off by (simpl; rewrite Silent.text_extractEvent; exact Hgo).
  rewrite Silent.outputactions_off, Silent.fail_off.
  rewrite Silent.onlyfailed_no_event by exact Hev.
  reflexivity.
Qed.

Lemma silent_quiet_before_make_test_witness :
  snd (processRecord noEvents noFloats (modeOf verboseNothing)
         (set_stack (mkStack ["Step 2/2"] 1) initScan)
         (mkLogline "" 0 1 ["Step 2/2"] "+ go build" "" None)) = [].
Proof.
  apply (silent_quiet_before_make_test noEvents noFloats
           (set_stack (mkStack ["Step 2/2"] 1) initScan)
           (mkLogline "" 0 1 ["Step 2/2"] "+ go build" "" None)); reflexivity.
Defined.

(** ** Only-failed aggregation *)

Module OnlyFailedFacts.

Lemma set_ll_set_ll : forall x y r, set_ll x (set_ll y r) = set_ll x r.
Proof. reflexivity. Qed.

Lemma set_ll_ll : forall r, set_ll (ll r) r = r.
Proof. intros [s e l o]. reflexivity. Qed.

Lemma set_ll_with_sc : forall x f r, set_ll x (with_sc f r) = with_sc f (set_ll x r).
Proof. reflexivity. Qed.

Lemma clear_set_cached : forall c r,
  clearCached (with_sc (set_cached c) r) = clearCached r.
Proof. reflexivity. Qed.

Lemma emitMassaged_set_cached : forall t c r,
  emitMassaged t (with_sc (set_cached c) r) = with_sc (set_cached c) (emitMassaged t r).
Proof.
  intros t c [[stk lt fi fm ad am ca] e l o]. unfold emitMassaged. simpl.
  destruct fm; simpl; destruct (0 <? _)%Z; reflexivity.
Qed.

Lemma flushOutputs_set_cached : forall buf c r,
  flushOutputs buf (with_sc (set_cached c) r) = with_sc (set_cached c) (flushOutputs buf r).
Proof.
  induction buf as [|x buf IH]; intros c r; [reflexivity |].
  simpl. destruct (testEvt x) as [e|]; [| apply IH].
  destruct (String.eqb (Action e) "output"); [| apply IH].
  rewrite set_ll_with_sc, emitMassaged_set_cached. simpl ll.
  rewrite set_ll_with_sc. apply IH.
Qed.

Lemma fold_dump_set_ll : forall buf x y r,
  set_ll x (fold_left dumpCachedStep buf (set_ll y r)) =
  set_ll x (fold_left dumpCachedStep buf r).
Proof. intros [|c buf] x y r; reflexivity. Qed.

Lemma ll_flushOutputs : forall buf r, ll (flushOutputs buf r) = ll r.
Proof.
  induction buf as [|x buf IH]; intros r; [reflexivity |].
  simpl. rewrite IH. destruct (testEvt x) as [e|]; [| reflexivity].
  destruct (String.eqb (Action e) "output"); reflexivity.
Qed.

(** Replaying the buffer as [dumpCached] does, then restoring [ll], is the
    flush of [flushOutputs]. *)
Lemma dump_is_flush : forall buf r,
  set_ll (ll r) (fold_left dumpCachedStep buf r) = flushOutputs buf r.
Proof.
  induction buf as [|c buf IH]; intros r; [apply set_ll_ll |].
  cbn [fold_left flushOutputs].
  set (r1 := match testEvt c with
             | Some e => if String.eqb (Action e) "output"
                         then set_ll (ll r) (emitMassaged (Output e) (set_ll c r)) else r
             | None => r end).
  assert (E : r1 = set_ll (ll r) (dumpCachedStep r c)).
  { unfold r1, dumpCachedStep. destruct (testEvt c) as [e|]; [| exact (eq_sym (set_ll_ll r))].
    destruct (String.eqb (Action e) "output"); [reflexivity | exact (eq_sym (set_ll_ll r))]. }
  assert (L : ll r1 = ll r) by (rewrite E; reflexivity).
  rewrite <- IH, L, E, fold_dump_set_ll. reflexivity.
Qed.

End OnlyFailedFacts.

(** C1: in the silent policy, for a record carrying a package-level event
    (empty test identifier), only-failed aggregation first appends the
    record to the buffer; then ["pass"] prints [package<TAB><elapsed>s] and
    clears it, ["skip"] prints [package<TAB>[no test files]] and clears,
    ["output"] prints nothing and leaves the record buffered, ["fail"]
    prints the output fragment of every buffered ["output"] event in buffer
    order, each timed by its own record, then [package<TAB>FAIL], and
    clears, and any other action prints [package<TAB><action>] and clears.
    On the two example sequences the run prints the header line, the
    column header, then exactly [x] and [A<TAB>FAIL], respectively exactly
    [A<TAB>1.5s]. *)
Theorem only_failed_package_events :
  (forall g r te,
     testEvt (ll r) = Some te -> Test te = "" ->
     (Action te = "pass" ->
        ruleOnlyFailed g (modeOf verboseNothing) r =
        clearCached (emitMassaged (Package te ++ TAB ++ g (Elapsed te) ++ "s") r)) /\
     (Action te = "skip" ->
        ruleOnlyFailed g (modeOf verboseNothing) r =
        clearCached (emitMassaged (Package te ++ TAB ++ "[no test files]") r)) /\
     (Action te = "output" ->
        ruleOnlyFailed g (modeOf verboseNothing) r =
        with_sc (set_cached (cached (sc r) ++ [ll r])%list) r) /\
     (Action te = "fail" ->
        ruleOnlyFailed g (modeOf verboseNothing) r =
        clearCached (emitMassaged (Package te ++ TAB ++ "FAIL")
                       (flushOutputs (cached (sc r) ++ [ll r])%list r))) /\
     (Action te <> "pass" -> Action te <> "skip" -> Action te <> "output" ->
      Action te <> "fail" ->
        ruleOnlyFailed g (modeOf verboseNothing) r =
        clearCached (emitMassaged (Package te ++ TAB ++ Action te) r))) /\
  cleanupLog exampleDecode exampleFmtG (twoEventLog jsonOutputX jsonFailA) verboseNothing
    = ([""; massagedHeader; rowOf "x"; rowOf ("A" ++ TAB ++ "FAIL")], Finished) /\
  cleanupLog exampleDecode exampleFmtG (twoEventLog jsonOutputX jsonPassA) verboseNothing
    = ([""; massagedHeader; rowOf ("A" ++ TAB ++ "1.5s")], Finished).
Proof.
  split; [| split; vm_compute; reflexivity].
  intros g r te Hev Ht.
  unfold ruleOnlyFailed. Silent.silent_bits. rewrite Hev.
  rewrite (proj2 (String.eqb_eq _ _) Ht).
  set (buf := (cached (sc r) ++ [ll r])%list).
  split; [| split; [| split; [| split]]].
  - intros Ha. rewrite Ha. cbn -[clearCached emitMassaged with_sc].
    rewrite OnlyFailedFacts.emitMassaged_set_cached, OnlyFailedFacts.clear_set_cached.
    reflexivity.
  - intros Ha. rewrite Ha. cbn -[clearCached emitMassaged with_sc].
    rewrite OnlyFailedFacts.emitMassaged_set_cached, OnlyFailedFacts.clear_set_cached.
    reflexivity.
  - intros Ha. rewrite Ha. reflexivity.
  - intros Ha. rewrite Ha. cbn -[clearCached emitMassaged with_sc dumpCached set_ll].
    unfold dumpCached. simpl cached.
    rewrite OnlyFailedFacts.set_ll_with_sc. simpl ll.
    pose proof (OnlyFailedFacts.dump_is_flush buf (with_sc (set_cached buf) r)) as D.
    simpl ll in D. rewrite D.
    rewrite OnlyFailedFacts.flushOutputs_set_cached.
    rewrite OnlyFailedFacts.emitMassaged_set_cached, OnlyFailedFacts.clear_set_cached.
    rewrite OnlyFailedFacts.emitMassaged_set_cached, OnlyFailedFacts.clear_set_cached.
    reflexivity.
  - intros Hp Hs Ho Hf.
    rewrite (proj2 (String.eqb_neq _ _) Hp), (proj2 (String.eqb_neq _ _) Hs),
            (proj2 (String.eqb_neq _ _) Ho), (proj2 (String.eqb_neq _ _) Hf).
    rewrite OnlyFailedFacts.emitMassaged_set_cached, OnlyFailedFacts.clear_set_cached.
    reflexivity.
Qed.

Lemma only_failed_package_events_witness :
  ruleOnlyFailed exampleFmtG (modeOf verboseNothing)
    (mkR initScan false (mkLogline "" 0 1 ["Step 2/2"] jsonFailA "" (Some evFailA)) []) =
  clearCached (emitMassaged (Package evFailA ++ TAB ++ "FAIL")
    (flushOutputs [mkLogline "" 0 1 ["Step 2/2"] jsonFailA "" (Some evFailA)]
       (mkR initScan false (mkLogline "" 0 1 ["Step 2/2"] jsonFailA "" (Some evFailA)) []))).
Proof.
  destruct (proj1 only_failed_package_events exampleFmtG
              (mkR initScan false (mkLogline "" 0 1 ["Step 2/2"] jsonFailA "" (Some evFailA)) [])
              evFailA eq_refl eq_refl) as (_ & _ & _ & Hfail & _).
  apply Hfail. reflexivity.
Defined.

(** ** Further properties of the line parser *)

Module TagFacts.

Lemma slen_app : forall a b, String.length (a ++ b) = (String.length a + String.length b)%nat.
Proof. induction a as [|c a IH]; intros b; simpl; [reflexivity | rewrite IH; reflexivity]. Qed.


Lemma splitAtClose_found : forall t r,
  hasChar "]" t = false -> splitAtClose (t ++ String "]" r) = Some (t, r).
Proof.
  induction t as [|c t IH]; intros r H; [reflexivity |].
  simpl in H. apply Bool.orb_false_iff in H as [Hc Ht].
  simpl. rewrite Hc, IH by exact Ht. reflexivity.
Qed.

Lemma splitAtClose_none : forall u, hasChar "]" u = false -> splitAtClose u = None.
Proof.
  induction u as [|c u IH]; intros H; [reflexivity |].
  simpl in H. apply Bool.orb_false_iff in H as [Hc Hu].
  simpl. rewrite Hc, IH by exact Hu. reflexivity.
Qed.

Lemma formatTags_length : forall ts,
  (3 * List.length ts <= String.length (formatTags ts))%nat.
Proof.
  induction ts as [|t ts IH]; [simpl; lia |].
  cbn [formatTags List.length String.append String.length].
  rewrite slen_app. cbn [String.append String.length]. lia.
Qed.

Lemma tagsLoop_step : forall f t R acc,
  hasChar "]" t = false ->
  tagsLoop (S f) ("[" ++ t ++ "] " ++ R) acc = tagsLoop f (" " ++ R) (acc ++ [t])%list.
Proof.
  intros f t R acc H. cbn [tagsLoop]. simpl String.append at 1.
  cbn [consumeMaybe]. simpl (Ascii.eqb "[" " "). cbv iota beta.
  simpl (Ascii.eqb "[" "["). cbv iota.
  change ("] " ++ R) with (String "]" (" " ++ R)).
  rewrite splitAtClose_found by exact H. reflexivity.
Qed.

Lemma tagsLoop_space : forall f R acc,
  consumeMaybe " " R = R ->
  tagsLoop (S f) (" " ++ R) acc = tagsLoop (S f) R acc.
Proof. intros f R acc H. cbn [tagsLoop]. simpl String.append. cbn [consumeMaybe].
  simpl (Ascii.eqb " " " "). cbv iota. rewrite H. reflexivity. Qed.

Lemma consumeMaybe_noSpace : forall R, hasPrefix R " " = false -> consumeMaybe " " R = R.
Proof.
  intros [|c R] H; [reflexivity |]. cbn [hasPrefix] in H.
  rewrite ParseFacts.hasPrefix_nil, Bool.andb_true_r, Ascii.eqb_sym in H.
  simpl. rewrite H. reflexivity.
Qed.

Lemma tagsLoop_format : forall tgs fuel rest acc,
  Forall (fun t => hasChar "]" t = false) tgs ->
  hasPrefix rest " " = false ->
  (tgs = [] \/ List.length tgs < fuel)%nat ->
  tagsLoop fuel (formatTags tgs ++ rest) acc =
  tagsLoop (fuel - List.length tgs) rest (acc ++ tgs)%list.
Proof.
  induction tgs as [|t ts IH]; intros fuel rest acc Hf Hr Hl.
  - simpl. rewrite Nat.sub_0_r, app_nil_r. reflexivity.
  - inversion Hf as [|? ? Ht Hts]; subst.
    destruct Hl as [Hl | Hl]; [discriminate |]. simpl List.length in Hl.
    destruct fuel as [|f]; [lia |].
    cbn [formatTags]. rewrite !ScanFacts.sapp_assoc. rewrite tagsLoop_step by exact Ht.
    destruct f as [|f']; [lia |].
    rewrite tagsLoop_space.
    + rewrite IH by (first [exact Hts | exact Hr | right; lia]).
      rewrite <- app_assoc. reflexivity.
    + destruct ts as [|t' ts']; [apply consumeMaybe_noSpace; exact Hr | reflexivity].
Qed.

Lemma tagsLoop_text : forall k txt acc,
  hasPrefix txt " " = false -> hasPrefix txt "[" = false ->
  tagsLoop k txt acc = (acc, txt).
Proof.
  intros [|k] [|c t] acc H1 H2; try reflexivity.
  cbn [hasPrefix] in H1, H2.
  rewrite ParseFacts.hasPrefix_nil, Bool.andb_true_r, Ascii.eqb_sym in H1, H2.
  cbn [tagsLoop consumeMaybe]. rewrite H1, H2. reflexivity.
Qed.

Lemma tagsLoop_unclosed : forall k u acc,
  hasChar "]" u = false -> tagsLoop (S k) ("[" ++ u) acc = (acc, u).
Proof.
  intros k u acc H. cbn [tagsLoop]. simpl String.append. cbn [consumeMaybe].
  simpl (Ascii.eqb "[" " "). simpl (Ascii.eqb "[" "["). cbv iota.
  rewrite splitAtClose_none by exact H. reflexivity.
Qed.

(** [logparse] on a well-shaped stamp: the tags loop gets the part after
    the tabs, with its full length as fuel. *)
Lemma logparse_stamp : forall h m s f n r,
  String.length h = 2%nat -> String.length m = 2%nat -> String.length s = 2%nat ->
  String.length f = 1%nat -> hasPrefix r TAB = false ->
  logparse ("[" ++ h ++ ":" ++ m ++ ":" ++ s ++ "]" ++ f ++ ":" ++ tabs n ++ r) =
  let '(tg, rest) := tagsLoop (String.length r) r [] in
  POk (mkLogline ("[" ++ h ++ ":" ++ m ++ ":" ++ s ++ "]" ++ f ++ ":" ++ tabs n ++ r)
         (atoiIgnoringErr h * 60 * 60 + atoiIgnoringErr m * 60 + atoiIgnoringErr s)%Z
         n tg rest EmptyString None).
Proof.
  intros h m s f n r Hh Hm Hs Hf Hr.
  destruct (ParseFacts.string_len2 h Hh) as (h1 & h2 & ->).
  destruct (ParseFacts.string_len2 m Hm) as (m1 & m2 & ->).
  destruct (ParseFacts.string_len2 s Hs) as (s1 & s2 & ->).
  destruct (ParseFacts.string_len1 f Hf) as (f1 & ->).
  unfold logparse. simpl String.append. cbv iota beta.
  rewrite Ascii.eqb_refl. cbv iota beta delta [negb].
  unfold logparse_body.
  repeat (first [ rewrite ParseFacts.expectLen_2 | rewrite ParseFacts.expectLen_1
                | progress cbn [pbind snd fst expectByte Ascii.eqb Bool.eqb andb] ]).
  rewrite ParseFacts.countTabs_tabs by exact Hr.
  destruct (tagsLoop _ _ _) as [tg rest]. reflexivity.
Qed.

End TagFacts.

(** [logparse] reads back a line written in the build server's format:
    stamp, [n] tabs, the tags each in brackets followed by a space, then a
    text that starts with none of space, ['['] and tab.  When no tag
    contains [']'], it returns the whole line as [raw], depth [n], exactly
    those tags in order, exactly that text, and neither auxiliary text nor
    event. *)
Theorem logparse_format_roundtrip : forall h m s f n tgs txt,
  String.length h = 2%nat -> String.length m = 2%nat -> String.length s = 2%nat ->
  String.length f = 1%nat ->
  Forall (fun t => hasChar "]" t = false) tgs ->
  hasPrefix txt " " = false -> hasPrefix txt "[" = false -> hasPrefix txt TAB = false ->
  exists l,
    logparse ("[" ++ h ++ ":" ++ m ++ ":" ++ s ++ "]" ++ f ++ ":" ++ tabs n
              ++ formatTags tgs ++ txt) = POk l /\
    raw l = "[" ++ h ++ ":" ++ m ++ ":" ++ s ++ "]" ++ f ++ ":" ++ tabs n
              ++ formatTags tgs ++ txt /\
    indent l = n /\ tags l = tgs /\ text l = txt /\ addtext l = "" /\ testEvt l = None.
Proof.
  intros h m s f n tgs txt Hh Hm Hs Hf Htags H1 H2 H3.
  rewrite TagFacts.logparse_stamp; [| assumption .. |].
  - rewrite TagFacts.tagsLoop_format by
      (first [exact Htags | exact H1 | destruct tgs as [|t ts]; [left; reflexivity | right];
              pose proof (TagFacts.formatTags_length (t :: ts)); rewrite TagFacts.slen_app;
              simpl List.length in *; lia]).
    rewrite TagFacts.tagsLoop_text by assumption.
    eexists. repeat split; reflexivity.
  - destruct tgs as [|t ts]; [exact H3 | reflexivity].
Qed.

Lemma logparse_format_roundtrip_witness :
  exists l,
    logparse ("[" ++ "10" ++ ":" ++ "00" ++ ":" ++ "07" ++ "]" ++ " " ++ ":" ++ tabs 1
              ++ formatTags ["Step 2/2"; "Test Output"] ++ "go test") = POk l /\
    raw l = "[" ++ "10" ++ ":" ++ "00" ++ ":" ++ "07" ++ "]" ++ " " ++ ":" ++ tabs 1
              ++ formatTags ["Step 2/2"; "Test Output"] ++ "go test" /\
    indent l = 1%nat /\ tags l = ["Step 2/2"; "Test Output"] /\ text l = "go test" /\
    addtext l = "" /\ testEvt l = None.
Proof.
  apply (logparse_format_roundtrip "10" "00" "07" " " 1 ["Step 2/2"; "Test Output"] "go test");
    first [reflexivity | repeat constructor].
Defined.

(** A ['['] that no [']'] follows is not a tag, and the parser drops it:
    after the tags, a rest ["[" ++ u] with no [']'] in [u] leaves the tags
    as they are and gives the text [u], without its ['[']. *)
Theorem logparse_unclosed_bracket : forall h m s f n tgs u,
  String.length h = 2%nat -> String.length m = 2%nat -> String.length s = 2%nat ->
  String.length f = 1%nat ->
  Forall (fun t => hasChar "]" t = false) tgs ->
  hasChar "]" u = false ->
  exists l,
    logparse ("[" ++ h ++ ":" ++ m ++ ":" ++ s ++ "]" ++ f ++ ":" ++ tabs n
              ++ formatTags tgs ++ "[" ++ u) = POk l /\
    indent l = n /\ tags l = tgs /\ text l = u.
Proof.
  intros h m s f n tgs u Hh Hm Hs Hf Htags Hu.
  rewrite TagFacts.logparse_stamp; [| assumption .. |].
  - rewrite TagFacts.tagsLoop_format by
      (first [exact Htags | reflexivity | destruct tgs as [|t ts]; [left; reflexivity | right];
              pose proof (TagFacts.formatTags_length (t :: ts)); rewrite TagFacts.slen_app;
              simpl List.length in *; lia]).
    rewrite TagFacts.slen_app.
    replace (String.length (formatTags tgs) + String.length ("[" ++ u) - List.length tgs)%nat
      with (S (String.length (formatTags tgs) + String.length u - List.length tgs))
      by (pose proof (TagFacts.formatTags_length tgs); simpl String.length; lia).
    rewrite TagFacts.tagsLoop_unclosed by exact Hu.
    eexists. repeat split; reflexivity.
  - destruct tgs as [|t ts]; reflexivity.
Qed.

Lemma logparse_unclosed_bracket_witness :
  exists l,
    logparse ("[" ++ "10" ++ ":" ++ "00" ++ ":" ++ "07" ++ "]" ++ " " ++ ":" ++ tabs 0
              ++ formatTags ["Step 2/2"] ++ "[" ++ "x") = POk l /\
    indent l = 0%nat /\ tags l = ["Step 2/2"] /\ text l = "x".
Proof.
  apply (logparse_unclosed_bracket "10" "00" "07" " " 0 ["Step 2/2"] "x");
    first [reflexivity | repeat constructor].
Defined.

Ltac shape_solve :=
  repeat (cbn -[atoiIgnoringErr countTabs tagsLoop];
          first [ match goal with |- context [Ascii.eqb ?a ?b] =>
                    is_var a; destruct (Ascii.eqb a b) end
                | match goal with |- context [countTabs ?x] =>
                    destruct (countTabs x) end
                | match goal with |- context [tagsLoop ?f ?x ?a] =>
                    destruct (tagsLoop f x a) end ]);
  cbn -[atoiIgnoringErr countTabs tagsLoop]; try (split; reflexivity); try reflexivity.

Lemma logparse_shape_cases : forall line,
  match logparse line with
  | PNil => exists c rest, line = String c rest /\ c <> "["%char
  | POk l => stampShaped line = true /\ raw l = line
  | PPanic _ => stampShaped line = false
  end.
Proof.
  intros [|c0 l0]; [reflexivity |].
  unfold logparse. destruct (Ascii.eqb c0 "[") eqn:E0; cbn [negb].
  2: { exists c0, l0. split; [reflexivity |]. intros ->.
       rewrite Ascii.eqb_refl in E0. discriminate. }
  apply Ascii.eqb_eq in E0. subst c0.
  unfold logparse_body, stampShaped.
  do 11 (destruct l0 as [|? l0]; [shape_solve |]).
  shape_solve.
Qed.

Lemma logparse_not_bracket : forall c rest,
  c <> "["%char -> logparse (String c rest) = PNil.
Proof.
  intros c rest H. unfold logparse.
  destruct (Ascii.eqb c "[") eqn:E; [apply Ascii.eqb_eq in E; contradiction | reflexivity].
Qed.

(** [logparse] returns nil exactly for the non-empty lines that do not
    start with ['[']; on every other line, the empty one included, it
    returns a record (whose [raw] is the line) when the twelve-byte prefix
    has the shape [[HH:MM:SS]F:] (['['], [':'], [':'], [']'], [':'] at
    offsets 0, 3, 6, 9, 11), and panics otherwise.  So it panics only on
    the empty line and on lines that start with ['['].  The digits are not
    checked: a bad field only reads as 0. *)
Theorem logparse_panics_iff_bad_stamp : forall line,
  match logparse line with
  | PNil => exists c rest, line = String c rest /\ c <> "["%char
  | POk l => stampShaped line = true /\ raw l = line
  | PPanic _ => stampShaped line = false /\
                (line = "" \/ exists rest, line = String "["%char rest)
  end.
Proof.
  intros line. pose proof (logparse_shape_cases line) as H.
  destruct (logparse line) as [| l | e] eqn:E; try exact H.
  split; [exact H |].
  destruct line as [|c rest]; [left; reflexivity | right; exists rest].
  destruct (Ascii.ascii_dec c "["%char) as [-> | Hc]; [reflexivity |].
  rewrite (logparse_not_bracket c rest Hc) in E. discriminate.
Qed.

(** ** The header and the verbosity mask *)



(** ** Structured events *)

(** A record gets a structured event exactly when it is inside the primary
    build step, its text starts with ['{'], the decoder accepts the text
    and the decoded action is not empty; the extraction changes nothing
    else in the record. *)
Theorem extractEvent_iff : forall dec bs l te,
  testEvt l = None ->
  (testEvt (extractEvent dec bs l) = Some te <->
   bs = true /\ hasPrefix (text l) "{" = true /\ dec (text l) = Some te /\ Action te <> "") /\
  extractEvent dec bs l = set_testEvt (testEvt (extractEvent dec bs l)) l.
Proof.
  intros dec bs [rw tm ind tg tx ad ev] te H. cbn [testEvt] in H. subst ev.
  unfold extractEvent. cbn [text].
  destruct bs.
  2: { split; [split; [intros E; discriminate | intros (E & _); discriminate] | reflexivity]. }
  destruct tx as [|c t].
  { split; [split; [intros E; discriminate | intros (_ & E & _); discriminate] | reflexivity]. }
  cbn [hasPrefix]. rewrite ParseFacts.hasPrefix_nil, Bool.andb_true_r, (Ascii.eqb_sym "{" c).
  destruct (Ascii.eqb c "{") eqn:Ec.
  2: { split; [split; [intros E; discriminate | intros (_ & E & _); discriminate] | reflexivity]. }
  destruct (dec (String c t)) as [te'|] eqn:Ed.
  2: { split; [split; [intros E; discriminate | intros (_ & _ & E & _); discriminate] | reflexivity]. }
  destruct (String.eqb (Action te') "") eqn:Ea; cbn [negb].
  - split; [| reflexivity]. split; [intros E; discriminate |].
    intros (_ & _ & E & Hne). injection E as <-. apply String.eqb_eq in Ea. contradiction.
  - split; [| reflexivity]. cbn [set_testEvt testEvt]. split.
    + intros E. injection E as <-. apply String.eqb_neq in Ea. repeat split; assumption.
    + intros (_ & _ & E & _). injection E as <-. reflexivity.
Qed.

Lemma extractEvent_iff_witness :
  testEvt (extractEvent exampleDecode true (mkLogline "" 0 1 ["Step 2/2"] jsonFailA "" None))
  = Some evFailA.
Proof.
  apply (proj1 (extractEvent_iff exampleDecode true
                  (mkLogline "" 0 1 ["Step 2/2"] jsonFailA "" None) evFailA eq_refl)).
  split; [reflexivity |]. split; [reflexivity |]. split; [reflexivity |].
  intros E; discriminate.
Defined.

(** ** What one record does to the scan state *)

Module Frame.

Lemma keepsFlags_refl : forall r, keepsFlags r r.
Proof. intros r. unfold keepsFlags. auto. Qed.

Lemma keepsFlags_trans : forall r1 r2 r3,
  keepsFlags r1 r2 -> keepsFlags r2 r3 -> keepsFlags r1 r3.
Proof. unfold keepsFlags. intros r1 r2 r3 (A & B & C & D) (A' & B' & C' & D'). repeat split; congruence. Qed.

Lemma keepsAll_refl : forall r, keepsAll r r.
Proof. intros r. unfold keepsAll. split; [apply keepsFlags_refl | auto]. Qed.

Lemma keepsAll_trans : forall r1 r2 r3, keepsAll r1 r2 -> keepsAll r2 r3 -> keepsAll r1 r3.
Proof.
  unfold keepsAll. intros r1 r2 r3 (F1 & C1 & L1) (F2 & C2 & L2).
  split; [eapply keepsFlags_trans; eassumption | split; congruence].
Qed.

Lemma emitMassaged_keeps : forall t r, keepsAll r (emitMassaged t r).
Proof.
  intros t [[stk lt fi fm ad am ca] e l o]. unfold keepsAll, keepsFlags, emitMassaged. cbn.
  destruct fm; cbn; destruct (0 <? _)%Z; repeat split.
Qed.

Lemma emitText_keeps : forall r, keepsAll r (emitText r).
Proof.
  intros r. unfold emitText. destruct (emitted r); [apply keepsAll_refl |].
  apply (emitMassaged_keeps (text (ll r)) (set_emitted true r)).
Qed.

Lemma emitRaw_keeps : forall r, keepsAll r (emitRaw r).
Proof. intros r. unfold emitRaw, keepsAll, keepsFlags. destruct (emitted r); repeat split. Qed.

Lemma printLine_keeps : forall s r, keepsAll r (printLine s r).
Proof. intros s r. unfold keepsAll, keepsFlags. repeat split. Qed.

Ltac keeps_tac :=
  cbv zeta;
  repeat match goal with
  | |- context [if ?b then _ else _] => destruct b
  | |- context [match ?x with Some _ => _ | None => _ end] => destruct x
  end;
  first [ apply keepsAll_refl | apply emitText_keeps | apply emitRaw_keeps
        | apply emitMassaged_keeps | apply printLine_keeps ].

Lemma root_keeps : forall mode r, keepsAll r (ruleShowRoot mode r).
Proof. intros. unfold ruleShowRoot. keeps_tac. Qed.
Lemma step1_keeps : forall mode r, keepsAll r (ruleShowStep1 mode r).
Proof. intros. unfold ruleShowStep1. keeps_tac. Qed.
Lemma step2_keeps : forall mode r, keepsAll r (ruleShowStep2 mode r).
Proof. intros. unfold ruleShowStep2. keeps_tac. Qed.
Lemma testoutput_keeps : forall mode r, keepsAll r (ruleShowTestOutput mode r).
Proof. intros. unfold ruleShowTestOutput. keeps_tac. Qed.
Lemma go_keeps : forall mode bs r, keepsAll r (ruleGoLine mode bs r).
Proof. intros. unfold ruleGoLine. keeps_tac. Qed.
Lemma outputactions_keeps : forall mode r, keepsAll r (ruleOutputActions mode r).
Proof. intros. unfold ruleOutputActions. keeps_tac. Qed.
Lemma fail_keeps : forall mode r, keepsAll r (ruleFailLine mode r).
Proof. intros. unfold ruleFailLine. keeps_tac. Qed.

(** Every rule but only-failed aggregation, in display order. *)
Lemma before_onlyFailed_keeps : forall mode bs r,
  keepsAll r (ruleFailLine mode (ruleOutputActions mode (ruleGoLine mode bs
    (ruleShowTestOutput mode (ruleShowStep2 mode (ruleShowStep1 mode (ruleShowRoot mode r))))))).
Proof.
  intros mode bs r.
  eapply keepsAll_trans; [| apply fail_keeps].
  eapply keepsAll_trans; [| apply outputactions_keeps].
  eapply keepsAll_trans; [| apply go_keeps].
  eapply keepsAll_trans; [| apply testoutput_keeps].
  eapply keepsAll_trans; [| apply step2_keeps].
  eapply keepsAll_trans; [| apply step1_keeps].
  apply root_keeps.
Qed.

Lemma with_sc_cached_flags : forall c r, keepsFlags r (with_sc (set_cached c) r).
Proof. intros. unfold keepsFlags. repeat split. Qed.

Lemma clearCached_flags : forall r, keepsFlags r (clearCached r).
Proof. intros. unfold keepsFlags. repeat split. Qed.

Lemma set_ll_flags : forall c r, keepsFlags r (set_ll c r).
Proof. intros. unfold keepsFlags. repeat split. Qed.

Lemma emitMassaged_flags : forall t r, keepsFlags r (emitMassaged t r).
Proof. intros. apply emitMassaged_keeps. Qed.

Lemma fold_dump_flags : forall buf r, keepsFlags r (fold_left dumpCachedStep buf r).
Proof.
  induction buf as [|c buf IH]; intros r; [apply keepsFlags_refl |].
  simpl. eapply keepsFlags_trans; [| apply IH].
  unfold dumpCachedStep. destruct (testEvt c) as [e|]; [| apply set_ll_flags].
  destruct (String.eqb (Action e) "output"); [| apply set_ll_flags].
  eapply keepsFlags_trans; [apply set_ll_flags | apply emitMassaged_flags].
Qed.

Lemma dumpCached_flags : forall r, keepsFlags r (dumpCached r).
Proof.
  intros r. unfold dumpCached.
  eapply keepsFlags_trans; [apply fold_dump_flags | apply with_sc_cached_flags].
Qed.

Ltac flags_tac :=
  repeat match goal with
  | |- keepsFlags ?r ?r => apply keepsFlags_refl
  | |- keepsFlags _ (clearCached _) => eapply keepsFlags_trans; [| apply clearCached_flags]
  | |- keepsFlags _ (with_sc (set_cached _) _) =>
      eapply keepsFlags_trans; [| apply with_sc_cached_flags]
  | |- keepsFlags _ (emitMassaged _ _) => eapply keepsFlags_trans; [| apply emitMassaged_flags]
  | |- keepsFlags _ (set_ll _ _) => eapply keepsFlags_trans; [| apply set_ll_flags]
  | |- keepsFlags _ (dumpCached _) => eapply keepsFlags_trans; [| apply dumpCached_flags]
  end.

Lemma onlyFailed_flags : forall g mode r, keepsFlags r (ruleOnlyFailed g mode r).
Proof.
  intros g mode r. unfold ruleOnlyFailed. cbv zeta.
  repeat match goal with
  | |- context [if ?b then _ else _] => destruct b
  | |- context [match ?x with Some _ => _ | None => _ end] => destruct x
  end; flags_tac.
Qed.

Lemma onlyFailed_buffer : forall g mode r,
  Forall (fun c => testEvt c <> None) (cached (sc r)) ->
  Forall (fun c => testEvt c <> None) (cached (sc (ruleOnlyFailed g mode r))).
Proof.
  intros g mode r H. unfold ruleOnlyFailed. cbv zeta.
  destruct (has mode modeShowOnlyFailed); [| exact H].
  destruct (testEvt (ll r)) as [te|] eqn:Ev; [| exact H].
  assert (Happ : Forall (fun c => testEvt c <> None) (cached (sc r) ++ [ll r])%list).
  { apply Forall_app. split; [exact H |]. constructor; [rewrite Ev; discriminate | constructor]. }
  repeat match goal with
  | |- context [if ?b then _ else _] => destruct b
  end;
  cbn [clearCached dumpCached with_sc sc set_cached cached]; first [constructor | exact Happ].
Qed.

Lemma updateFlags_facts : forall bs l st,
  let st' := updateFlags bs l st in
  stack st' = stack st /\ first st' = false /\ cached st' = cached st /\
  (afterDwz st = true -> afterDwz st' = true) /\
  (afterMakeTest st = true -> afterMakeTest st' = true) /\
  (afterDwz st = false -> afterDwz st' = true ->
     bs = true /\ (hasPrefix (text l) "+ dwz --version"
                   || hasPrefix (text l) "Finding latest patch") = true) /\
  (afterMakeTest st = false -> afterMakeTest st' = true ->
     bs = true /\ (hasPrefix (text l) "+ make test"
                   || hasPrefix (text l) "Finding latest patch") = true).
Proof.
  intros bs l [stk lt fi fm ad am ca]. unfold updateFlags. cbv zeta.
  destruct ad, am, bs, fi, (hasPrefix (text l) "+ dwz --version"),
           (hasPrefix (text l) "+ make test"), (hasPrefix (text l) "Finding latest patch");
    cbn; repeat split; intros; discriminate.
Qed.

Lemma display_facts : forall g mode bs st l,
  stack (fst (display g mode bs st l)) = stack st /\
  afterDwz (fst (display g mode bs st l)) = afterDwz st /\
  afterMakeTest (fst (display g mode bs st l)) = afterMakeTest st /\
  first (fst (display g mode bs st l)) = first st /\
  (Forall (fun c => testEvt c <> None) (cached st) ->
   Forall (fun c => testEvt c <> None) (cached (fst (display g mode bs st l)))).
Proof.
  intros g mode bs st l. unfold display. cbv zeta. cbn [fst].
  pose proof (before_onlyFailed_keeps mode bs (mkR st false l [])) as ((A & B & C & D) & E & _).
  match goal with |- context [ruleOnlyFailed g mode ?x] =>
    pose proof (onlyFailed_flags g mode x) as (A' & B' & C' & D');
    pose proof (onlyFailed_buffer g mode x) as Hb end.
  cbn [sc] in *. repeat split; try congruence.
  intros H. apply Hb. rewrite E. exact H.
Qed.

End Frame.

(** One record never changes the context stack outside [treeize], always
    clears [first], and never clears a phase flag.  A phase flag only goes
    from false to true on a record inside the primary build step whose
    text starts with its marker (["+ dwz --version"] or ["+ make test"])
    or with ["Finding latest patch"]. *)
Theorem processRecord_phase_flags : forall dec g mode st l,
  let bs := isBuildStep (stack st) in
  let st' := fst (processRecord dec g mode st l) in
  stack st' = stack st /\ first st' = false /\
  (afterDwz st = true -> afterDwz st' = true) /\
  (afterMakeTest st = true -> afterMakeTest st' = true) /\
  (afterDwz st = false -> afterDwz st' = true ->
     bs = true /\ (hasPrefix (text l) "+ dwz --version"
                   || hasPrefix (text l) "Finding latest patch") = true) /\
  (afterMakeTest st = false -> afterMakeTest st' = true ->
     bs = true /\ (hasPrefix (text l) "+ make test"
                   || hasPrefix (text l) "Finding latest patch") = true).
Proof.
  intros dec g mode st l bs st'. subst bs st'. unfold processRecord. cbv zeta.
  set (bs := isBuildStep (stack st)).
  set (l' := extractEvent dec bs l).
  pose proof (Frame.updateFlags_facts bs l' st) as (U1 & U2 & _ & U4 & U5 & U6 & U7).
  pose proof (Frame.display_facts g mode bs (updateFlags bs l' st) l') as (D1 & D2 & D3 & D4 & _).
  assert (T : text l' = text l) by apply Silent.text_extractEvent.
  rewrite T in U6, U7. cbv zeta in *.
  rewrite D1, D2, D3, D4. exact (conj U1 (conj U2 (conj U4 (conj U5 (conj U6 U7))))).
Qed.

Lemma processRecord_phase_flags_witness :
  afterDwz (set_stack (mkStack ["Step 2/2"] 1) initScan) = false /\
  afterDwz (fst (processRecord noEvents noFloats (modeOf verboseGoTestVerbose)
     (set_stack (mkStack ["Step 2/2"] 1) initScan)
     (mkLogline "" 0 1 ["Step 2/2"] "+ dwz --version" "" None))) = true /\
  isBuildStep (stack (set_stack (mkStack ["Step 2/2"] 1) initScan)) = true /\
  (hasPrefix "+ dwz --version" "+ dwz --version" || hasPrefix "+ dwz --version" "Finding latest patch") = true.
Proof.
  assert (H0 : afterDwz (set_stack (mkStack ["Step 2/2"] 1) initScan) = false) by reflexivity.
  assert (H1 : afterDwz (fst (processRecord noEvents noFloats (modeOf verboseGoTestVerbose)
     (set_stack (mkStack ["Step 2/2"] 1) initScan)
     (mkLogline "" 0 1 ["Step 2/2"] "+ dwz --version" "" None))) = true) by (vm_compute; reflexivity).
  split; [exact H0 |]. split; [exact H1 |].
  exact (proj1 (proj2 (proj2 (proj2 (proj2
    (processRecord_phase_flags noEvents noFloats (modeOf verboseGoTestVerbose)
       (set_stack (mkStack ["Step 2/2"] 1) initScan)
       (mkLogline "" 0 1 ["Step 2/2"] "+ dwz --version" "" None)))))) H0 H1).
Defined.

(** The only-failed buffer only ever holds records that carry a
    structured event: one record keeps this true of the buffer. *)
Theorem buffer_holds_events : forall dec g mode st l,
  Forall (fun c => testEvt c <> None) (cached st) ->
  Forall (fun c => testEvt c <> None) (cached (fst (processRecord dec g mode st l))).
Proof.
  intros dec g mode st l H. unfold processRecord. cbv zeta.
  set (bs := isBuildStep (stack st)).
  set (l' := extractEvent dec bs l).
  pose proof (Frame.updateFlags_facts bs l' st) as (_ & _ & U3 & _).
  pose proof (Frame.display_facts g mode bs (updateFlags bs l' st) l') as (_ & _ & _ & _ & D).
  apply D. cbv zeta in U3. rewrite U3. exact H.
Qed.

Lemma buffer_holds_events_witness :
  Forall (fun c => testEvt c <> None)
    (cached (fst (processRecord exampleDecode exampleFmtG (modeOf verboseNothing)
       (set_stack (mkStack ["Step 2/2"] 1) initScan)
       (mkLogline "" 0 1 ["Step 2/2"] jsonOutputX "" None)))).
Proof.
  apply (buffer_holds_events exampleDecode exampleFmtG (modeOf verboseNothing)
           (set_stack (mkStack ["Step 2/2"] 1) initScan)
           (mkLogline "" 0 1 ["Step 2/2"] jsonOutputX "" None)).
  constructor.
Defined.

(** ** Test-level events under only-failed aggregation *)

Module TestLevel.

Lemma emitMassaged_ll : forall t r, ll (emitMassaged t r) = ll r.
Proof. intros t r. apply (proj2 (proj2 (Frame.emitMassaged_keeps t r))). Qed.

(** After replaying a buffer, [ll] is its last record. *)
Lemma ll_fold_dump_last : forall buf x r,
  ll (fold_left dumpCachedStep (buf ++ [x])%list r) = x.
Proof.
  intros buf x r. rewrite fold_left_app. cbn [fold_left].
  unfold dumpCachedStep. destruct (testEvt x) as [e|]; [| reflexivity].
  destruct (String.eqb (Action e) "output"); [| reflexivity].
  rewrite emitMassaged_ll. reflexivity.
Qed.

(** [dumpCached] on a buffer that ends with the current record is the
    flush followed by emptying the buffer. *)
Lemma dumpCached_last : forall buf r,
  dumpCached (with_sc (set_cached (buf ++ [ll r])%list) r) =
  clearCached (flushOutputs (buf ++ [ll r])%list r).
Proof.
  intros buf r. unfold dumpCached.
  set (r1 := with_sc (set_cached (buf ++ [ll r])%list) r).
  change (cached (sc r1)) with (buf ++ [ll r])%list.
  rewrite <- (OnlyFailedFacts.set_ll_ll (fold_left dumpCachedStep (buf ++ [ll r])%list r1)).
  rewrite ll_fold_dump_last.
  change (ll r) with (ll r1) at 1.
  rewrite OnlyFailedFacts.dump_is_flush.
  unfold r1. rewrite OnlyFailedFacts.flushOutputs_set_cached.
  apply OnlyFailedFacts.clear_set_cached.
Qed.

End TestLevel.

(** With only-failed aggregation on, a record carrying a test-level event
    (non-empty test identifier) is first appended to the buffer.  A
    ["pass"] then discards the whole buffer, the output of the package's
    other tests included, and prints nothing; a ["fail"] prints the output
    fragment of every buffered ["output"] event in buffer order, timed by
    its own record, prints no [FAIL] line and empties the buffer; any other
    action leaves the record buffered and prints nothing. *)
Theorem only_failed_test_events : forall g mode r te,
  has mode modeShowOnlyFailed = true ->
  testEvt (ll r) = Some te -> Test te <> "" ->
  (Action te = "pass" -> ruleOnlyFailed g mode r = clearCached r) /\
  (Action te = "fail" ->
     ruleOnlyFailed g mode r = clearCached (flushOutputs (cached (sc r) ++ [ll r])%list r)) /\
  (Action te <> "pass" -> Action te <> "fail" ->
     ruleOnlyFailed g mode r = with_sc (set_cached (cached (sc r) ++ [ll r])%list) r).
Proof.
  intros g mode r te Hm Hev Ht.
  unfold ruleOnlyFailed. rewrite Hm, Hev.
  rewrite (proj2 (String.eqb_neq _ _) Ht).
  set (buf := (cached (sc r) ++ [ll r])%list).
  split; [| split].
  - intros Ha. rewrite Ha. apply OnlyFailedFacts.clear_set_cached.
  - intros Ha. rewrite Ha. cbn -[clearCached with_sc dumpCached].
    apply TestLevel.dumpCached_last.
  - intros Hp Hf.
    rewrite (proj2 (String.eqb_neq _ _) Hp), (proj2 (String.eqb_neq _ _) Hf). reflexivity.
Qed.

Lemma only_failed_test_events_witness :
  ruleOnlyFailed exampleFmtG (modeOf verboseNothing)
    (mkR initScan false (mkLogline "" 0 1 ["Step 2/2"] "" "" (Some (mkTestEvent "" "fail" "A" "T" 0%float ""))) []) =
  clearCached (flushOutputs
    [mkLogline "" 0 1 ["Step 2/2"] "" "" (Some (mkTestEvent "" "fail" "A" "T" 0%float ""))]
    (mkR initScan false (mkLogline "" 0 1 ["Step 2/2"] "" "" (Some (mkTestEvent "" "fail" "A" "T" 0%float ""))) [])).
Proof.
  refine (proj1 (proj2 (only_failed_test_events exampleFmtG (modeOf verboseNothing)
    (mkR initScan false (mkLogline "" 0 1 ["Step 2/2"] "" "" (Some (mkTestEvent "" "fail" "A" "T" 0%float ""))) [])
    (mkTestEvent "" "fail" "A" "T" 0%float "") _ _ _)) _).
  - reflexivity.
  - reflexivity.
  - intros E; discriminate.
  - reflexivity.
Defined.

(** ** What an event record prints at verbosities 1 and 2 *)

Module Verbose.

Ltac mode_bits :=
  repeat match goal with
  | |- context [has (modeOf ?v) ?f] =>
      let b := eval vm_compute in (has (modeOf v) f) in
      change (has (modeOf v) f) with b
  end.

Lemma extractEvent_bs : forall dec bs l te,
  testEvt l = None -> testEvt (extractEvent dec bs l) = Some te -> bs = true.
Proof.
  intros dec bs l te H E. destruct bs; [reflexivity |].
  cbn [extractEvent] in E. rewrite H in E. discriminate.
Qed.

Lemma buildStep_top : forall stk,
  isBuildStep stk = true ->
  (slen stk =? 0)%nat = false /\ topOfStackIs stk "Test Output" = false.
Proof.
  intros stk H. unfold isBuildStep, topOfStackIs in *.
  destruct (0 <? slen stk)%nat eqn:L; [| discriminate].
  apply Nat.ltb_lt in L. split; [apply Nat.eqb_neq; lia |].
  cbn [andb] in *. apply Bool.orb_true_iff in H.
  destruct H as [H | H]; apply String.eqb_eq in H; rewrite H; reflexivity.
Qed.

(** Verbosity 1. *)
Lemma v1_root : forall r, ruleShowRoot (modeOf verboseGoTestVerbose) r = r.
Proof. intros r. unfold ruleShowRoot. mode_bits. reflexivity. Qed.
Lemma v1_step1 : forall r, ruleShowStep1 (modeOf verboseGoTestVerbose) r = r.
Proof. intros r. unfold ruleShowStep1. mode_bits. reflexivity. Qed.
Lemma v1_step2 : forall r te,
  testEvt (ll r) = Some te -> ruleShowStep2 (modeOf verboseGoTestVerbose) r = r.
Proof.
  intros r te H. unfold ruleShowStep2. mode_bits. cbv zeta. rewrite H.
  destruct (has_tag r "Step 2/2" || has_tag r "Step 1/1"), (afterDwz (sc r)),
           (topIs r "Step 2/2"), (topIs r "Test Output"); reflexivity.
Qed.
Lemma v1_testoutput : forall r, ruleShowTestOutput (modeOf verboseGoTestVerbose) r = r.
Proof. intros r. unfold ruleShowTestOutput. mode_bits. reflexivity. Qed.
Lemma v1_go : forall bs r, ruleGoLine (modeOf verboseGoTestVerbose) bs r = r.
Proof. intros bs r. unfold ruleGoLine. mode_bits. reflexivity. Qed.
Lemma v1_outputactions : forall r te,
  testEvt (ll r) = Some te ->
  ruleOutputActions (modeOf verboseGoTestVerbose) r =
  if String.eqb (Action te) "output" then emitMassaged (Output te) r else r.
Proof. intros r te H. unfold ruleOutputActions. mode_bits. rewrite H. reflexivity. Qed.
Lemma v1_fail : forall r, ruleFailLine (modeOf verboseGoTestVerbose) r = r.
Proof.
  intros r. unfold ruleFailLine. mode_bits. destruct (testEvt (ll r)); [| reflexivity].
  rewrite Bool.andb_false_r. reflexivity.
Qed.
Lemma v_onlyfailed : forall g v r,
  has (modeOf v) modeShowOnlyFailed = false -> ruleOnlyFailed g (modeOf v) r = r.
Proof. intros g v r H. unfold ruleOnlyFailed. rewrite H. reflexivity. Qed.

(** Verbosity 2. *)
Lemma v2_root : forall r,
  (slen (stack (sc r)) =? 0)%nat = false -> ruleShowRoot (modeOf verboseTestOutput) r = r.
Proof. intros r H. unfold ruleShowRoot. mode_bits. rewrite H. reflexivity. Qed.
Lemma v2_step1 : forall r,
  has_tag r "Step 1/2" = false -> ruleShowStep1 (modeOf verboseTestOutput) r = r.
Proof. intros r H. unfold ruleShowStep1. mode_bits. rewrite H. reflexivity. Qed.
Lemma v2_step2 : forall r te,
  testEvt (ll r) = Some te -> ruleShowStep2 (modeOf verboseTestOutput) r = r.
Proof.
  intros r te H. unfold ruleShowStep2. mode_bits. cbv zeta. rewrite H.
  destruct (has_tag r "Step 2/2" || has_tag r "Step 1/1"), (afterDwz (sc r)),
           (topIs r "Step 2/2"), (topIs r "Test Output"); reflexivity.
Qed.
Lemma v2_testoutput : forall r,
  topIs r "Test Output" = false -> ruleShowTestOutput (modeOf verboseTestOutput) r = r.
Proof. intros r H. unfold ruleShowTestOutput. mode_bits. rewrite H. reflexivity. Qed.
Lemma v2_go : forall bs r, ruleGoLine (modeOf verboseTestOutput) bs r = r.
Proof. intros bs r. unfold ruleGoLine. mode_bits. reflexivity. Qed.
Lemma v2_outputactions : forall r, ruleOutputActions (modeOf verboseTestOutput) r = r.
Proof. intros r. unfold ruleOutputActions. mode_bits. reflexivity. Qed.
Lemma v2_fail : forall r te,
  testEvt (ll r) = Some te ->
  ruleFailLine (modeOf verboseTestOutput) r =
  if String.eqb (Action te) "fail" then emitMassaged ("FAIL" ++ TAB ++ Package te) r else r.
Proof.
  intros r te H. unfold ruleFailLine. mode_bits. rewrite H. cbn [negb andb].
  rewrite Bool.andb_true_r. reflexivity.
Qed.

End Verbose.

(** At verbosity 1 a record that carries a structured event never has its
    JSON text printed: an ["output"] event prints exactly its output
    fragment in massaged form, and every other event, ["fail"] included,
    prints nothing. *)
Theorem go_test_verbose_events : forall dec g st l te,
  testEvt l = None ->
  testEvt (extractEvent dec (isBuildStep (stack st)) l) = Some te ->
  snd (processRecord dec g (modeOf verboseGoTestVerbose) st l) =
  if String.eqb (Action te) "output" then
    out (emitMassaged (Output te)
      (mkR (updateFlags (isBuildStep (stack st)) (extractEvent dec (isBuildStep (stack st)) l) st)
           false (extractEvent dec (isBuildStep (stack st)) l) []))
  else [].
Proof.
  intros dec g st l te H0 Hev. unfold processRecord, display. cbv zeta.
  set (l' := extractEvent dec (isBuildStep (stack st)) l) in *.
  set (r := mkR (updateFlags (isBuildStep (stack st)) l' st) false l' []).
  assert (Hr : testEvt (ll r) = Some te) by exact Hev.
  rewrite Verbose.v1_root, Verbose.v1_step1, (Verbose.v1_step2 r te Hr),
          Verbose.v1_testoutput, Verbose.v1_go, (Verbose.v1_outputactions r te Hr),
          Verbose.v1_fail, Verbose.v_onlyfailed by reflexivity.
  destruct (String.eqb (Action te) "output"); reflexivity.
Qed.

Lemma go_test_verbose_events_witness :
  snd (processRecord exampleDecode noFloats (modeOf verboseGoTestVerbose)
         (set_stack (mkStack ["Step 2/2"] 1) initScan)
         (mkLogline "" 0 1 ["Step 2/2"] jsonOutputX "" None)) =
  out (emitMassaged (Output evOutputX)
    (mkR (updateFlags true (extractEvent exampleDecode true (mkLogline "" 0 1 ["Step 2/2"] jsonOutputX "" None))
            (set_stack (mkStack ["Step 2/2"] 1) initScan))
         false (extractEvent exampleDecode true (mkLogline "" 0 1 ["Step 2/2"] jsonOutputX "" None)) [])).
Proof.
  exact (go_test_verbose_events exampleDecode noFloats
           (set_stack (mkStack ["Step 2/2"] 1) initScan)
           (mkLogline "" 0 1 ["Step 2/2"] jsonOutputX "" None) evOutputX eq_refl
           (eq_refl : testEvt (extractEvent exampleDecode true
                        (mkLogline "" 0 1 ["Step 2/2"] jsonOutputX "" None)) = Some evOutputX)).
Defined.

(** At verbosity 2 a record that carries a structured event, inside a
    context with no ["Step 1/2"] tag, never has its JSON text printed: a
    ["fail"] event prints exactly [FAIL<TAB>package] in massaged form and
    every other event, ["output"] included, prints nothing. *)
Theorem test_output_verbosity_events : forall dec g st l te,
  testEvt l = None ->
  stackHas (stack st) "Step 1/2" = false ->
  testEvt (extractEvent dec (isBuildStep (stack st)) l) = Some te ->
  snd (processRecord dec g (modeOf verboseTestOutput) st l) =
  if String.eqb (Action te) "fail" then
    out (emitMassaged ("FAIL" ++ TAB ++ Package te)
      (mkR (updateFlags (isBuildStep (stack st)) (extractEvent dec (isBuildStep (stack st)) l) st)
           false (extractEvent dec (isBuildStep (stack st)) l) []))
  else [].
Proof.
  intros dec g st l te H0 H12 Hev.
  pose proof (Verbose.extractEvent_bs _ _ _ _ H0 Hev) as Hbs.
  destruct (Verbose.buildStep_top _ Hbs) as [Hlen Htop].
  unfold processRecord, display. cbv zeta.
  set (l' := extractEvent dec (isBuildStep (stack st)) l) in *.
  pose proof (Frame.updateFlags_facts (isBuildStep (stack st)) l' st) as (Hstk & _).
  cbv zeta in Hstk.
  set (r := mkR (updateFlags (isBuildStep (stack st)) l' st) false l' []).
  assert (Hr : testEvt (ll r) = Some te) by exact Hev.
  assert (Hl : (slen (stack (sc r)) =? 0)%nat = false) by (cbn [sc r]; rewrite Hstk; exact Hlen).
  assert (H1 : has_tag r "Step 1/2" = false) by (unfold has_tag; cbn [sc r]; rewrite Hstk; exact H12).
  assert (Ht : topIs r "Test Output" = false) by (unfold topIs; cbn [sc r]; rewrite Hstk; exact Htop).
  rewrite (Verbose.v2_root r Hl), (Verbose.v2_step1 r H1), (Verbose.v2_step2 r te Hr),
          (Verbose.v2_testoutput r Ht), Verbose.v2_go, Verbose.v2_outputactions,
          (Verbose.v2_fail r te Hr), Verbose.v_onlyfailed by reflexivity.
  destruct (String.eqb (Action te) "fail"); reflexivity.
Qed.

Lemma test_output_verbosity_events_witness :
  snd (processRecord exampleDecode noFloats (modeOf verboseTestOutput)
         (set_stack (mkStack ["Step 2/2"] 1) initScan)
         (mkLogline "" 0 1 ["Step 2/2"] jsonFailA "" None)) =
  out (emitMassaged ("FAIL" ++ TAB ++ Package evFailA)
    (mkR (updateFlags true (extractEvent exampleDecode true (mkLogline "" 0 1 ["Step 2/2"] jsonFailA "" None))
            (set_stack (mkStack ["Step 2/2"] 1) initScan))
         false (extractEvent exampleDecode true (mkLogline "" 0 1 ["Step 2/2"] jsonFailA "" None)) [])).
Proof.
  exact (test_output_verbosity_events exampleDecode noFloats
           (set_stack (mkStack ["Step 2/2"] 1) initScan)
           (mkLogline "" 0 1 ["Step 2/2"] jsonFailA "" None) evFailA eq_refl eq_refl
           (eq_refl : testEvt (extractEvent exampleDecode true
                        (mkLogline "" 0 1 ["Step 2/2"] jsonFailA "" None)) = Some evFailA)).
Defined.

(** ** Command-line handling of [main] *)

Module ArgFacts.

Lemma hasPrefix_length : forall s p, hasPrefix s p = true -> (String.length p <= String.length s)%nat.
Proof.
  intros s p. revert s. induction p as [|c p IH]; intros s H; [simpl; lia |].
  destruct s as [|d s]; [discriminate |]. cbn [hasPrefix] in H.
  apply Bool.andb_true_iff in H as [_ H]. cbn [String.length]. specialize (IH s H). lia.
Qed.

Lemma vterm_pos : forall a, hasPrefix a "-v" = true -> (1 <= Z.of_nat (String.length a) - 1)%Z.
Proof. intros a H. apply hasPrefix_length in H. cbn [String.length] in H. lia. Qed.

Lemma vsum_nonneg : forall args, (0 <= vsum args)%Z.
Proof.
  induction args as [|a args IH]; [simpl; lia |]. cbn [vsum].
  destruct (hasPrefix a "-v") eqn:E; [pose proof (vterm_pos a E) |]; lia.
Qed.

Lemma logArgs_fst : forall args v l, fst (logArgs args v l) = (v + vsum args)%Z.
Proof.
  induction args as [|a args IH]; intros v l; [simpl; lia |].
  cbn [logArgs vsum]. destruct (hasPrefix a "-v"); rewrite IH; lia.
Qed.

Lemma logCommand_fst : forall args, fst (logCommand args) = vsum args.
Proof.
  intros args. unfold logCommand. pose proof (logArgs_fst args 0 "") as H.
  destruct (logArgs args 0 "") as [v la]. cbn [fst] in H.
  destruct (String.eqb la ""); [| destruct (AtoiInt64 la)]; cbn [fst]; lia.
Qed.

Lemma vsum_perm : forall args args', Permutation args args' -> vsum args' = vsum args.
Proof.
  intros args args' P. induction P; cbn [vsum].
  - reflexivity.
  - rewrite IHP. reflexivity.
  - destruct (hasPrefix x "-v"), (hasPrefix y "-v"); lia.
  - congruence.
Qed.

Lemma vsum_zero_iff : forall args,
  vsum args = 0%Z <-> Forall (fun a => hasPrefix a "-v" = false) args.
Proof.
  induction args as [|a args IH]; [split; [constructor | reflexivity] |]. cbn [vsum].
  pose proof (vsum_nonneg args).
  destruct (hasPrefix a "-v") eqn:E.
  - pose proof (vterm_pos a E). split; [lia | intros F; inversion F; congruence].
  - split; [intros H0; constructor; [exact E | apply IH; exact H0] |].
    intros F. inversion F. apply IH. assumption.
Qed.



Lemma logArgs_app : forall xs ys v l,
  logArgs (xs ++ ys) v l = logArgs ys (fst (logArgs xs v l)) (snd (logArgs xs v l)).
Proof.
  induction xs as [|x xs IH]; intros ys v l; [reflexivity |].
  cbn [app logArgs]. destruct (hasPrefix x "-v"); apply IH.
Qed.

Lemma logArgs_flags : forall post v l,
  Forall (fun b => hasPrefix b "-v" = true) post -> snd (logArgs post v l) = l.
Proof.
  induction post as [|b post IH]; intros v l F; [reflexivity |].
  inversion F as [|? ? Hb Fp]; subst. cbn [logArgs]. rewrite Hb. apply IH, Fp.
Qed.

Lemma logCommand_snd : forall args,
  snd (logCommand args) =
  let la := snd (logArgs args 0 "") in
  if String.eqb la "" then LogUsage
  else match AtoiInt64 la with Some id => LogDownload id | None => LogFile la end.
Proof.
  intros args. unfold logCommand. destruct (logArgs args 0 "") as [v la]. cbn [snd].
  destruct (String.eqb la ""); [| destruct (AtoiInt64 la)]; reflexivity.
Qed.

Lemma isDigit_not : forall c x, isDigit c = true -> isDigit x = false -> Ascii.eqb x c = false.
Proof.
  intros c x H Hx. destruct (Ascii.eqb x c) eqn:E; [| reflexivity].
  apply Ascii.eqb_eq in E. subst x. congruence.
Qed.

Lemma atoi_digits_all : forall s n,
  allDigits s = true ->
  exists v, atoi_digits s n = Some (n * 10 ^ Z.of_nat (String.length s) + v)%Z /\
            (0 <= v < 10 ^ Z.of_nat (String.length s))%Z.
Proof.
  induction s as [|c s IH]; intros n H.
  - exists 0%Z. cbn. split; [f_equal; lia | lia].
  - cbn [allDigits] in H. apply Bool.andb_true_iff in H as [Hc Hs].
    unfold isDigit in Hc. apply Bool.andb_true_iff in Hc as [H1 H2].
    apply Nat.leb_le in H1. apply Nat.leb_le in H2.
    cbn [atoi_digits].
    set (d := (Z.of_nat (nat_of_ascii c) - 48)%Z).
    assert (Hd : (0 <= d <= 9)%Z) by (unfold d; lia).
    replace ((d <? 0) || (9 <? d))%Z with false
      by (symmetry; apply Bool.orb_false_iff; split; [apply Z.ltb_ge | apply Z.ltb_ge]; lia).
    destruct (IH (n * 10 + d)%Z Hs) as (v & E & Hv).
    exists (d * 10 ^ Z.of_nat (String.length s) + v)%Z. rewrite E.
    cbn [String.length]. rewrite Nat2Z.inj_succ, Z.pow_succ_r by lia.
    split; [f_equal; ring | nia].
Qed.

Lemma pow10_18 : (10 ^ 18 < 2 ^ 63)%Z.
Proof. reflexivity. Qed.

End ArgFacts.

(** The verbosity of [log] is the sum, over the arguments that start with
    ["-v"], of their length minus one: it does not depend on the order of
    the arguments, is never negative, and is zero exactly when no argument
    starts with ["-v"] (each such argument adds at least one). *)
Theorem log_verbosity_sum : forall args args',
  Permutation args args' ->
  fst (logCommand args) = vsum args /\
  fst (logCommand args') = fst (logCommand args) /\
  (0 <= fst (logCommand args))%Z /\
  (fst (logCommand args) = 0%Z <-> Forall (fun a => hasPrefix a "-v" = false) args).
Proof.
  intros args args' P. rewrite !ArgFacts.logCommand_fst.
  split; [reflexivity |]. split; [apply ArgFacts.vsum_perm; exact P |].
  split; [apply ArgFacts.vsum_nonneg | apply ArgFacts.vsum_zero_iff].
Qed.

Lemma log_verbosity_sum_witness :
  fst (logCommand ["-v"; "123"; "-vv"]) = fst (logCommand ["123"; "-vv"; "-v"]) /\
  fst (logCommand ["123"; "-vv"; "-v"]) = vsum ["123"; "-vv"; "-v"].
Proof.
  destruct (log_verbosity_sum ["123"; "-vv"; "-v"] ["-v"; "123"; "-vv"]
              (perm_trans (perm_skip "123" (perm_swap "-v" "-vv" []))
                          (perm_swap "-v" "123" ["-vv"])))
    as (H1 & H2 & _).
  split; [exact H2 | exact H1].
Defined.

(** The log source of [log] is decided by the last argument that does not
    start with ["-v"] alone: every earlier such argument is overridden, so
    an empty last argument gives [usage()] whatever came before; with no
    such argument at all it is [usage()]. *)
Theorem log_last_plain_arg_wins : forall pre a post,
  hasPrefix a "-v" = false ->
  Forall (fun b => hasPrefix b "-v" = true) post ->
  snd (logCommand (pre ++ a :: post)%list) = snd (logCommand [a]) /\
  (Forall (fun b => hasPrefix b "-v" = true) (pre ++ post)%list ->
   snd (logCommand (pre ++ post)%list) = LogUsage).
Proof.
  intros pre a post Ha Hp. rewrite !ArgFacts.logCommand_snd. cbv zeta.
  split.
  - rewrite ArgFacts.logArgs_app. cbn [logArgs]. rewrite Ha.
    rewrite ArgFacts.logArgs_flags by exact Hp. reflexivity.
  - intros F. rewrite ArgFacts.logArgs_flags by exact F. reflexivity.
Qed.

Lemma log_last_plain_arg_wins_witness :
  snd (logCommand ["build.log"; "-v"; ""; "-vv"]) = LogUsage.
Proof.
  refine (eq_trans (proj1 (log_last_plain_arg_wins ["build.log"; "-v"] "" ["-vv"] eq_refl _)) eq_refl).
  repeat constructor.
Defined.

(** An argument made of an optional ['+'] or ['-'] and one to eighteen
    decimal digits is always taken as a build id to download, never as a
    file name; the id is the digits' value, negated after ['-']. *)
Theorem log_numeric_arg_downloads : forall sgn ds,
  In sgn [""; "+"; "-"] -> allDigits ds = true -> ds <> "" ->
  (String.length ds <= 18)%nat ->
  exists v, atoi_digits ds 0 = Some v /\ (0 <= v)%Z /\
    snd (logCommand [sgn ++ ds]) = LogDownload (if String.eqb sgn "-" then (- v)%Z else v).
Proof.
  intros sgn ds Hs Hd Hne Hl.
  destruct (ArgFacts.atoi_digits_all ds 0 Hd) as (v & E & Hv).
  rewrite Z.mul_0_l, Z.add_0_l in E.
  assert (Hb : (10 ^ Z.of_nat (String.length ds) <= 10 ^ 18)%Z)
    by (apply Z.pow_le_mono_r; lia).
  pose proof ArgFacts.pow10_18.
  exists v. split; [exact E |]. split; [lia |].
  destruct ds as [|c ds']; [contradiction |].
  assert (Hc : isDigit c = true) by (cbn [allDigits] in Hd; apply Bool.andb_true_iff in Hd; apply Hd).
  pose proof (ArgFacts.isDigit_not c "-" Hc eq_refl) as Hm.
  pose proof (ArgFacts.isDigit_not c "+" Hc eq_refl) as Hp.
  pose proof (ArgFacts.isDigit_not c "v" Hc eq_refl) as Hv'.
  assert (Hpre : hasPrefix (sgn ++ String c ds') "-v" = false).
  { destruct Hs as [<- | [<- | [<- | []]]]; cbn [String.append hasPrefix];
      [rewrite Hm | | rewrite Hv']; reflexivity. }
  assert (Hnz : String.eqb (sgn ++ String c ds') "" = false).
  { destruct Hs as [<- | [<- | [<- | []]]]; reflexivity. }
  assert (Hat : Atoi (sgn ++ String c ds') =
                if String.eqb sgn "-" then option_map Z.opp (atoi_digits (String c ds') 0)
                else atoi_digits (String c ds') 0).
  { destruct Hs as [<- | [<- | [<- | []]]]; [| reflexivity | reflexivity].
    cbn [String.append Atoi]. rewrite (Ascii.eqb_sym c "-"), (Ascii.eqb_sym c "+"), Hm, Hp.
    reflexivity. }
  rewrite ArgFacts.logCommand_snd. cbv zeta.
  cbn [logArgs]. rewrite Hpre. cbn [logArgs snd]. rewrite Hnz.
  unfold AtoiInt64. rewrite Hat, E.
  destruct (String.eqb sgn "-"); cbn [option_map].
  - replace ((- 2 ^ 63 <=? - v) && (- v <? 2 ^ 63))%Z with true
      by (symmetry; apply Bool.andb_true_iff; split; [apply Z.leb_le | apply Z.ltb_lt]; lia).
    reflexivity.
  - replace ((- 2 ^ 63 <=? v) && (v <? 2 ^ 63))%Z with true
      by (symmetry; apply Bool.andb_true_iff; split; [apply Z.leb_le | apply Z.ltb_lt]; lia).
    reflexivity.
Qed.

Lemma log_numeric_arg_downloads_witness :
  exists v, atoi_digits "4711" 0 = Some v /\ (0 <= v)%Z /\
    snd (logCommand ["-" ++ "4711"]) = LogDownload (if String.eqb "-" "-" then (- v)%Z else v).
Proof.
  apply (log_numeric_arg_downloads "-" "4711").
  - right; right; left; reflexivity.
  - reflexivity.
  - discriminate.
  - cbn; lia.
Defined.



(** [main] prints the usage when it gets no subcommand, whatever the
    environment.  Otherwise, when [TEAMCITY_TOKEN] or [TEAMCITY_HOST] is
    empty it reports exactly the empty ones, the token first, and exits
    before looking at the subcommand. *)
Theorem main_usage_and_env : forall osArgs token host,
  ((List.length osArgs < 2)%nat -> mainCommand osArgs token host = CmdUsage) /\
  ((2 <= List.length osArgs)%nat -> (token = "" \/ host = "") ->
   mainCommand osArgs token host =
   CmdEnvMissing ((if String.eqb token "" then ["TEAMCITY_TOKEN not defined"] else [])
                  ++ (if String.eqb host "" then ["TEAMCITY_HOST not defined"] else []))%list /\
   (In "TEAMCITY_TOKEN not defined"
      ((if String.eqb token "" then ["TEAMCITY_TOKEN not defined"] else [])
       ++ (if String.eqb host "" then ["TEAMCITY_HOST not defined"] else []))%list <-> token = "") /\
   (In "TEAMCITY_HOST not defined"
      ((if String.eqb token "" then ["TEAMCITY_TOKEN not defined"] else [])
       ++ (if String.eqb host "" then ["TEAMCITY_HOST not defined"] else []))%list <-> host = "")).
Proof.
  intros osArgs token host. unfold mainCommand. split.
  - intros H. apply Nat.ltb_lt in H. rewrite H. reflexivity.
  - intros H He. apply Nat.ltb_ge in H. rewrite H.
    destruct (String.eqb token "") eqn:Et, (String.eqb host "") eqn:Eh;
      apply String.eqb_eq in Et || apply String.eqb_neq in Et;
      apply String.eqb_eq in Eh || apply String.eqb_neq in Eh;
      cbn [orb app In];
      try (destruct He; contradiction).
    all: split; [reflexivity | split; split; intros; try assumption;
           repeat match goal with
                  | H : _ \/ _ |- _ => destruct H
                  | H : False |- _ => destruct H
                  | H : ?a = ?b |- _ => discriminate H
                  end; auto; contradiction].
Qed.

Lemma main_usage_and_env_witness :
  mainCommand ["teamcityrun"; "log"; "123"] "" "ci.example" =
  CmdEnvMissing ["TEAMCITY_TOKEN not defined"].
Proof.
  exact (proj1 (proj2 (main_usage_and_env ["teamcityrun"; "log"; "123"] "" "ci.example")
                  (le_n_S _ _ (le_n_S _ _ (Nat.le_0_l _))) (or_introl eq_refl))).
Defined.

(** With both environment variables set, [main] dispatches on its first
    argument: [status] takes the next argument as the build id, ignores any
    further one, and panics with an index out of range when there is none;
    [log] runs at the summed ["-v"] verbosity on the source its last plain
    argument names; any word that is not one of the four subcommands (a
    misspelt one or the empty word included) becomes the case-insensitive
    build-type pattern [(?i:word)] of a trigger. *)
Theorem main_dispatch : forall prog cmd rest token host,
  token <> "" -> host <> "" ->
  (cmd = "status" ->
     mainCommand (prog :: cmd :: rest) token host =
     match rest with [] => CmdPanic "index out of range" | id :: _ => CmdStatus id end) /\
  (cmd = "log" ->
     mainCommand (prog :: cmd :: rest) token host = CmdLog (vsum rest) (snd (logCommand rest))) /\
  (~ In cmd ["status"; "buildtypes"; "log"; "diff"] ->
     mainCommand (prog :: cmd :: rest) token host = CmdTrigger ("(?i:" ++ cmd ++ ")")).
Proof.
  intros prog cmd rest token host Ht Hh. unfold mainCommand.
  rewrite (proj2 (String.eqb_neq _ _) Ht), (proj2 (String.eqb_neq _ _) Hh).
  cbn [List.length Nat.ltb Nat.leb orb nth skipn nth_error].
  split; [| split].
  - intros ->. destruct rest; reflexivity.
  - intros ->. cbn [String.eqb Ascii.eqb Bool.eqb andb].
    rewrite <- ArgFacts.logCommand_fst. destruct (logCommand rest); reflexivity.
  - intros Hn.
    destruct (String.eqb cmd "status") eqn:E1; [apply String.eqb_eq in E1; subst; exfalso; apply Hn; simpl; auto |].
    destruct (String.eqb cmd "buildtypes") eqn:E2; [apply String.eqb_eq in E2; subst; exfalso; apply Hn; simpl; auto |].
    destruct (String.eqb cmd "log") eqn:E3; [apply String.eqb_eq in E3; subst; exfalso; apply Hn; simpl; auto |].
    destruct (String.eqb cmd "diff") eqn:E4; [apply String.eqb_eq in E4; subst; exfalso; apply Hn; simpl; auto |].
    reflexivity.
Qed.

Lemma main_dispatch_witness :
  mainCommand ["teamcityrun"; "stauts"; "42"] "t" "h" = CmdTrigger ("(?i:" ++ "stauts" ++ ")").
Proof.
  refine (proj2 (proj2 (main_dispatch "teamcityrun" "stauts" ["42"] "t" "h" _ _)) _).
  - discriminate.
  - discriminate.
  - cbn. intros [E | [E | [E | [E | []]]]]; discriminate.
Defined.

(** ** The massaged row *)

Module Massaged.

Lemma fmtSpace4d_len : forall n, (0 < n < 1000)%Z -> String.length (fmtSpace4d n) = 4%nat.
Proof.
  assert (A : forallb (fun k => Nat.eqb (String.length (fmtSpace4d (Z.of_nat k))) 4)
                      (seq 1 999) = true) by (vm_compute; reflexivity).
  intros n Hn. rewrite forallb_forall in A. specialize (A (Z.to_nat n)).
  rewrite Z2Nat.id in A by lia. apply Nat.eqb_eq, A, in_seq. lia.
Qed.

End Massaged.

(** Every massaged print adds one row (after the column header when it is
    the first one of the run).  While the time since the previous row is
    below 1000 seconds, the row is a four-byte time column, a TAB, then the
    text with its trailing newline (and a carriage return before it)
    removed; the row's time becomes the reference of the next row. *)
Theorem massaged_row_layout : forall t r,
  (time (ll r) - lastTime (sc r) < 1000)%Z ->
  exists dt, String.length dt = 4%nat /\
    out (emitMassaged t r) =
      (out r ++ (if firstMassaged (sc r) then [massagedHeader] else [])
             ++ [(dt ++ TAB ++ stripNL t)%string])%list /\
    lastTime (sc (emitMassaged t r)) = time (ll r) /\
    firstMassaged (sc (emitMassaged t r)) = false.
Proof.
  intros t [[stk lt fi fm ad am ca] e l o] H. cbn [sc ll lastTime] in H.
  unfold emitMassaged. cbv zeta.
  destruct fm; cbn [firstMassaged sc with_sc set_firstMassaged printLine ll lastTime out];
    destruct (0 <? time l - lt)%Z eqn:D;
    [apply Z.ltb_lt in D; exists (fmtSpace4d (time l - lt))
    | exists "    "
    | apply Z.ltb_lt in D; exists (fmtSpace4d (time l - lt))
    | exists "    "];
    (split; [first [apply Massaged.fmtSpace4d_len; lia | reflexivity] |]);
    cbn; rewrite ?app_nil_r, <- ?app_assoc; auto.
Qed.

Lemma massaged_row_layout_witness :
  exists dt, String.length dt = 4%nat /\
    out (emitMassaged ("ok" ++ NL) (mkR initScan false (mkLogline "" 42 0 [] "" "" None) [])) =
      ([] ++ (if firstMassaged (sc (mkR initScan false (mkLogline "" 42 0 [] "" "" None) []))
              then [massagedHeader] else [])
          ++ [(dt ++ TAB ++ stripNL ("ok" ++ NL))%string])%list /\
    lastTime (sc (emitMassaged ("ok" ++ NL) (mkR initScan false (mkLogline "" 42 0 [] "" "" None) []))) = 42%Z /\
    firstMassaged (sc (emitMassaged ("ok" ++ NL) (mkR initScan false (mkLogline "" 42 0 [] "" "" None) []))) = false.
Proof.
  apply (massaged_row_layout ("ok" ++ NL) (mkR initScan false (mkLogline "" 42 0 [] "" "" None) [])).
  cbn. lia.
Defined.

(** ** The context stack: ancestors *)

(** A record that [treeize] accepts keeps the context above it: every
    entry of the old visible stack that lies below both the old depth and
    the first slot the record's tags overwrite is unchanged. *)
Theorem treeize_keeps_ancestors : forall stk l,
  List.length (arr stk) = 20%nat ->
  (List.length (tags l) <= indent l <= 20)%nat ->
  exists stk', treeize stk l = inr stk' /\
    forall i, (i < slen stk)%nat -> (i < indent l - List.length (tags l))%nat ->
      nth i (visible stk') "" = nth i (visible stk) "".
Proof.
  intros stk l Hcap [Ht Hd]. unfold treeize. rewrite Hcap.
  replace (20 <? indent l)%nat with false by (symmetry; apply Nat.ltb_ge; lia).
  set (a := fold_left (fun a i => upd a i EmptyString)
              (seq (slen stk) (indent l - slen stk)) (arr stk)).
  assert (Ha : List.length a = 20%nat)
    by (unfold a; rewrite StackFacts.zero_fill_length; exact Hcap).
  destruct (StackFacts.writeTags_ok (indent l) (List.length (tags l)) (tags l) a 0 Ht)
    as [a' [W [Hlen Hnth]]]; [lia |].
  rewrite W. eexists. split; [reflexivity |].
  intros i Hi Hi'. unfold visible. cbn [slen arr]. rewrite !nth_firstn.
  replace (i <? indent l)%nat with true by (symmetry; apply Nat.ltb_lt; lia).
  replace (i <? slen stk)%nat with true by (symmetry; apply Nat.ltb_lt; lia).
  rewrite Hnth.
  replace (indent l - List.length (tags l) + 0 <=? i)%nat with false
    by (symmetry; apply Nat.leb_gt; lia).
  cbn [andb]. unfold a. rewrite StackFacts.nth_zero_fill.
  replace (slen stk <=? i)%nat with false by (symmetry; apply Nat.leb_gt; lia).
  reflexivity.
Qed.

Lemma treeize_keeps_ancestors_witness :
  exists stk', treeize (mkStack (["Step 2/2"; "Test Output"] ++ repeat EmptyString 18) 2)
                       (mkLogline "" 0 2 ["Test Output"] "" "" None) = inr stk' /\
    forall i, (i < 2)%nat -> (i < 2 - 1)%nat ->
      nth i (visible stk') "" =
      nth i (visible (mkStack (["Step 2/2"; "Test Output"] ++ repeat EmptyString 18) 2)) "".
Proof.
  apply (treeize_keeps_ancestors (mkStack (["Step 2/2"; "Test Output"] ++ repeat EmptyString 18) 2)
           (mkLogline "" 0 2 ["Test Output"] "" "" None)).
  - reflexivity.
  - cbn. lia.
Defined.
